(** * Ampora route planner: the [plan_trip] heuristic of [src/main.py]

    The development embeds the route-planning endpoint of the Ampora API
    (great-circle distance, energy feasibility, selection of one charging
    stop) and proves the properties its specification states.

    Numbers.  Python's [float] values are read as real numbers: the
    arithmetic of the endpoint is followed operation by operation in
    exact arithmetic ([R]), and the statements about [plan_trip] are
    statements about this exact reading.  Python's [int] values are [Z].
    The two places where rounding changes what the endpoint does are
    treated apart, on IEEE 754 binary64 numbers: the square root of
    [1 - a] in the distance estimator ([Binary64]), and the quotient
    [efficiency / 100], which underflows to zero for the smallest
    positive efficiencies ([Binary64Trip], lines 176-205).

    Failure.  A Python call either returns or raises; [Outcome] keeps the
    two apart, and every operation of the endpoint that can raise
    ([math.sqrt] on a negative number, [/] by zero, [[0]] on an empty list,
    the explicit [HTTPException]) is written with its raising case.

    The other endpoints.  [serialize], the health report
    ([test_database]), [create_booking], [seed_data] and the listing
    endpoints follow, over documents as ordered dictionaries and a store
    of collections; [create_document] and [get_documents], whose module
    is not among the sources, are parameters of the endpoints that call
    them. *)

From Stdlib Require Import Reals Lra Lia ZArith List String Bool.
From Stdlib Require Import Permutation Sorted.
From Stdlib Require PrimFloat FloatOps SpecFloat.
Import ListNotations.

Local Open Scope string_scope.
Local Open Scope list_scope.
Local Open Scope R_scope.

(* ================================================================== *)
(** ** Python run-time values used by the endpoint *)

Module Py.

(** What a call can raise.  [HTTPException] is FastAPI's; the others are
    the built-in exceptions of the operations [plan_trip] uses. *)
Inductive Exn : Type :=
| HTTPException (status_code : Z) (detail : string)
| ValueError (msg : string)
| ZeroDivisionError (msg : string)
| IndexError (msg : string)
| OverflowError (msg : string).

Inductive Outcome (A : Type) : Type :=
| Return (a : A)
| Raise (e : Exn).

Arguments Return {A} a.
Arguments Raise {A} e.

Definition bind {A B : Type} (m : Outcome A) (k : A -> Outcome B) : Outcome B :=
  match m with
  | Return a => k a
  | Raise e => Raise e
  end.

Definition map_outcome {A B : Type} (f : A -> B) (m : Outcome A) : Outcome B :=
  bind m (fun a => Return (f a)).

(** [bool(x)] of a float: false exactly for zero. *)
Definition truthy (x : R) : bool :=
  if Req_dec_T x 0 then false else true.

(** [x / y] on floats. *)
Definition truediv (x y : R) : Outcome R :=
  if Req_dec_T y 0 then Raise (ZeroDivisionError "float division by zero")
  else Return (x / y).

(** [math.radians]. *)
Definition radians (x : R) : R := x * (PI / 180).

(** [math.sqrt]: a negative argument is a domain error. *)
Definition math_sqrt (x : R) : Outcome R :=
  if Rlt_dec x 0 then Raise (ValueError "math domain error")
  else Return (sqrt x).

(** [math.atan2 y x]: the angle of the point [(x, y)], in (-PI, PI]. *)
Definition atan2 (y x : R) : R :=
  if Rlt_dec 0 x then atan (y / x)
  else if Rlt_dec x 0 then
    (if Rle_dec 0 y then atan (y / x) + PI else atan (y / x) - PI)
  else if Rlt_dec 0 y then PI / 2
  else if Rlt_dec y 0 then - (PI / 2)
  else 0.

(** [int(x)]: truncation towards zero. *)
Definition int (x : R) : Z :=
  if Rle_dec 0 x then Int_part x else (- Int_part (- x))%Z.

(** Nearest integer, ties to the even one (the rule [round] follows). *)
Definition round_half_even (y : R) : Z :=
  let n := Int_part y in
  let r := y - IZR n in
  if Rlt_dec r (1 / 2) then n
  else if Rlt_dec (1 / 2) r then (n + 1)%Z
  else if Z.even n then n else (n + 1)%Z.

(** [round(x, 1)]. *)
Definition round1 (x : R) : R := IZR (round_half_even (x * 10)) / 10.

(** [l[0]]. *)
Definition index0 {A : Type} (l : list A) : Outcome A :=
  match l with
  | x :: _ => Return x
  | [] => Raise (IndexError "list index out of range")
  end.

End Py.

Import Py.

Notation "x <- m ;; k" := (bind m (fun x => k))
  (at level 61, m at next level, right associativity).

(* ================================================================== *)
(** ** [sorted(l, key=..., reverse=True)]

    Python's sort is stable, also with [reverse=True]: elements whose keys
    are equal keep the order they had in [l].  The model is the stable
    insertion sort by descending key. *)

Section SortedReverse.

Variable A : Type.
Variable key : A -> R.

(** [x] was before every element of [l] in the input: it goes in front of
    the first element whose key is not larger than its own. *)
Fixpoint insert_desc (x : A) (l : list A) : list A :=
  match l with
  | [] => [x]
  | y :: l' =>
      if Rle_dec (key y) (key x) then x :: y :: l'
      else y :: insert_desc x l'
  end.

Definition sorted_reverse (l : list A) : list A :=
  fold_right insert_desc [] l.

(** The first element of [l] whose key no other element exceeds. *)
Fixpoint first_max (l : list A) : option A :=
  match l with
  | [] => None
  | x :: l' =>
      match first_max l' with
      | None => Some x
      | Some m => if Rle_dec (key m) (key x) then Some x else Some m
      end
  end.

(** The order of the result: keys never increase. *)
Definition desc (x y : A) : Prop := key y <= key x.

(** The elements of one key, for stating stability. *)
Definition has_key (k : R) (x : A) : bool :=
  if Req_dec_T (key x) k then true else false.

End SortedReverse.

Arguments desc {A} key x y.
Arguments has_key {A} key k x.
Arguments insert_desc {A} key x l.
Arguments sorted_reverse {A} key l.
Arguments first_max {A} key l.

(* ================================================================== *)
(** ** Data model ([src/main.py], [src/schemas.py]) *)

(** [class TripRequest(BaseModel)]. *)
Record TripRequest : Type := {
  origin_lat : R;
  origin_lng : R;
  dest_lat : R;
  dest_lng : R;
  vehicle_battery_kwh : R;
  vehicle_efficiency_kwh_per_100km : R;
  current_soc_percent : R;
  target_arrival_soc_percent : R
}.

(** The field constraints of [TripRequest]: only the two state-of-charge
    fields carry one ([ge=0, le=100]). *)
Definition validated (req : TripRequest) : Prop :=
  0 <= current_soc_percent req <= 100 /\
  0 <= target_arrival_soc_percent req <= 100.

(** A document of the [chargingstation] collection, as far as [plan_trip]
    reads it: each key may be absent. *)
Record StationDoc : Type := {
  doc_id : option string;
  doc_name : option string;
  doc_latitude : option R;
  doc_longitude : option R;
  doc_power_kw : option R
}.

(** [d.get(k, default)]. *)
Definition get {V : Type} (field : option V) (default : V) : V :=
  match field with
  | Some v => v
  | None => default
  end.

(** [class RoutePlanStop(BaseModel)]. *)
Record RoutePlanStop : Type := {
  station_id : string;
  station_name : string;
  latitude : R;
  longitude : R;
  charge_minutes : Z;
  notes : option string
}.

(** [class RoutePlan(BaseModel)]: the eight fields of the request, then
    the computed ones.  The field names are those of [schemas.py]; the
    module keeps them apart from the request's. *)
Module RoutePlan.

Record t : Type := {
  origin_lat : R;
  origin_lng : R;
  dest_lat : R;
  dest_lng : R;
  vehicle_battery_kwh : R;
  vehicle_efficiency_kwh_per_100km : R;
  current_soc_percent : R;
  target_arrival_soc_percent : R;
  total_distance_km : R;
  estimated_duration_minutes : Z;
  stops : list RoutePlanStop
}.

End RoutePlan.

(** The [db] object of the [database] module: [None] when no database is
    configured, otherwise the [chargingstation] collection in the order
    [find({})] yields it. *)
Definition Database : Type := option (list StationDoc).

(* ================================================================== *)
(** ** [plan_trip] *)

(** Lines 176-181: the haversine distance, Earth radius 6371 km. *)
Definition haversine_km (lat1 lng1 lat2 lng2 : R) : Outcome R :=
  let dlat := radians (lat2 - lat1) in
  let dlon := radians (lng2 - lng1) in
  let a := sin (dlat / 2) ^ 2
           + cos (radians lat1) * cos (radians lat2) * sin (dlon / 2) ^ 2 in
  sa <- math_sqrt a ;;
  sb <- math_sqrt (1 - a) ;;
  let c := 2 * atan2 sa sb in
  Return (6371 * c).

(** Line 208: [list(db["chargingstation"].find({}).limit(50)) if db else []]. *)
Definition find_stations (db : Database) : list StationDoc :=
  match db with
  | Some coll => firstn 50 coll
  | None => []
  end.

(** The sort key of line 213: [s.get("power_kw", 0)]. *)
Definition power_key (s : StationDoc) : R := get (doc_power_kw s) 0.

(** Line 213: [sorted(stations, key=..., reverse=True)[0]]. *)
Definition select_station (stations : list StationDoc) : Outcome StationDoc :=
  index0 (sorted_reverse power_key stations).

(** Line 216: [25 if station.get("power_kw", 50) >= 150 else 35]. *)
Definition charge_minutes_of (station : StationDoc) : Z :=
  if Rge_dec (get (doc_power_kw station) 50) 150 then 25%Z else 35%Z.

(** [str(station.get("_id"))]: an absent id prints as [None]. *)
Definition str_id (i : option string) : string :=
  match i with
  | Some s => s
  | None => "None"
  end.

(** Lines 222-229. *)
Definition make_stop (req : TripRequest) (station : StationDoc) : RoutePlanStop :=
  {| station_id := str_id (doc_id station);
     station_name := get (doc_name station) "Station";
     latitude := get (doc_latitude station) (origin_lat req);
     longitude := get (doc_longitude station) (origin_lng req);
     charge_minutes := charge_minutes_of station;
     notes := Some "Heuristic stop based on fastest available charger" |}.

(** Lines 183-185, given the distance.  In exact arithmetic the quotient
    [kwh_per_km] is zero for the efficiency 0 only; [Binary64Trip] has
    the rounded quotient. *)
Definition max_km_now (req : TripRequest) (distance_km : R) : Outcome R :=
  let usable_kwh := vehicle_battery_kwh req * (current_soc_percent req / 100) in
  let kwh_per_km := vehicle_efficiency_kwh_per_100km req / 100 in
  if truthy kwh_per_km then truediv usable_kwh kwh_per_km
  else Return distance_km.

(** The [RoutePlan(...)] call shared by lines 192-204 and 232-244: the
    request is echoed field by field. *)
Definition make_plan (req : TripRequest) (distance_km : R)
    (duration_minutes : Z) (stops : list RoutePlanStop) : RoutePlan.t :=
  {| RoutePlan.origin_lat := origin_lat req;
     RoutePlan.origin_lng := origin_lng req;
     RoutePlan.dest_lat := dest_lat req;
     RoutePlan.dest_lng := dest_lng req;
     RoutePlan.vehicle_battery_kwh := vehicle_battery_kwh req;
     RoutePlan.vehicle_efficiency_kwh_per_100km :=
       vehicle_efficiency_kwh_per_100km req;
     RoutePlan.current_soc_percent := current_soc_percent req;
     RoutePlan.target_arrival_soc_percent := target_arrival_soc_percent req;
     RoutePlan.total_distance_km := round1 distance_km;
     RoutePlan.estimated_duration_minutes := duration_minutes;
     RoutePlan.stops := stops |}.

Definition plan_trip (db : Database) (req : TripRequest) : Outcome RoutePlan.t :=
  distance_km <- haversine_km (origin_lat req) (origin_lng req)
                              (dest_lat req) (dest_lng req) ;;
  max_km <- max_km_now req distance_km ;;
  let stops : list RoutePlanStop := [] in
  if Rge_dec max_km (distance_km * 1.05) then
    let duration_minutes := int (distance_km / 90 * 60) in
    Return (make_plan req distance_km duration_minutes stops)
  else
    let stations := find_stations db in
    match stations with
    | [] => Raise (HTTPException 400 "No stations available to plan route")
    | _ :: _ =>
        station <- select_station stations ;;
        let charge := charge_minutes_of station in
        let base_time := distance_km / 90 * 60 in
        let duration_minutes := int (base_time + IZR charge) in
        let stop := make_stop req station in
        Return (make_plan req distance_km duration_minutes (stops ++ [stop]))
    end.

(* ================================================================== *)
(** ** The values [plan_trip] computes when nothing is raised

    These name the intermediate results of lines 176-190, so that the
    statements below can speak of "the distance" and "the reach" of a
    request.  [haversine_returns] and [max_km_now_returns] show that the
    code computes exactly these. *)

(** The variable [a] of line 179. *)
Definition hav_a (lat1 lng1 lat2 lng2 : R) : R :=
  sin (radians (lat2 - lat1) / 2) ^ 2
  + cos (radians lat1) * cos (radians lat2)
    * sin (radians (lng2 - lng1) / 2) ^ 2.

(** The variable [distance_km] of line 181. *)
Definition great_circle_km (lat1 lng1 lat2 lng2 : R) : R :=
  let a := hav_a lat1 lng1 lat2 lng2 in
  6371 * (2 * atan2 (sqrt a) (sqrt (1 - a))).

Definition trip_km (req : TripRequest) : R :=
  great_circle_km (origin_lat req) (origin_lng req) (dest_lat req) (dest_lng req).

(** The variable [max_km_now] of line 185. *)
Definition reach_km (req : TripRequest) : R :=
  let usable_kwh := vehicle_battery_kwh req * (current_soc_percent req / 100) in
  let kwh_per_km := vehicle_efficiency_kwh_per_100km req / 100 in
  if truthy kwh_per_km then usable_kwh / kwh_per_km else trip_km req.

(** The test of line 190. *)
Definition feasible (req : TripRequest) : Prop :=
  reach_km req >= trip_km req * 1.05.

(** The specification's wording of the reach: usable energy
    (battery x SOC / 100) divided by energy per km (efficiency / 100). *)
Definition spec_max_reachable_km (req : TripRequest) : R :=
  (vehicle_battery_kwh req * current_soc_percent req / 100)
  / (vehicle_efficiency_kwh_per_100km req / 100).

(** The two plans [plan_trip] can return. *)
Definition direct_plan (req : TripRequest) : RoutePlan.t :=
  make_plan req (trip_km req) (int (trip_km req / 90 * 60)) [].

Definition stop_plan (req : TripRequest) (station : StationDoc) : RoutePlan.t :=
  make_plan req (trip_km req)
    (int (trip_km req / 90 * 60 + IZR (charge_minutes_of station)))
    [make_stop req station].

(** The same request with another state of charge, or another target. *)
Definition with_soc (req : TripRequest) (soc : R) : TripRequest :=
  {| origin_lat := origin_lat req;
     origin_lng := origin_lng req;
     dest_lat := dest_lat req;
     dest_lng := dest_lng req;
     vehicle_battery_kwh := vehicle_battery_kwh req;
     vehicle_efficiency_kwh_per_100km := vehicle_efficiency_kwh_per_100km req;
     current_soc_percent := soc;
     target_arrival_soc_percent := target_arrival_soc_percent req |}.

Definition with_target (req : TripRequest) (target : R) : TripRequest :=
  {| origin_lat := origin_lat req;
     origin_lng := origin_lng req;
     dest_lat := dest_lat req;
     dest_lng := dest_lng req;
     vehicle_battery_kwh := vehicle_battery_kwh req;
     vehicle_efficiency_kwh_per_100km := vehicle_efficiency_kwh_per_100km req;
     current_soc_percent := current_soc_percent req;
     target_arrival_soc_percent := target |}.

(** A plan with its echoed target replaced. *)
Definition plan_with_target (target : R) (p : RoutePlan.t) : RoutePlan.t :=
  {| RoutePlan.origin_lat := RoutePlan.origin_lat p;
     RoutePlan.origin_lng := RoutePlan.origin_lng p;
     RoutePlan.dest_lat := RoutePlan.dest_lat p;
     RoutePlan.dest_lng := RoutePlan.dest_lng p;
     RoutePlan.vehicle_battery_kwh := RoutePlan.vehicle_battery_kwh p;
     RoutePlan.vehicle_efficiency_kwh_per_100km :=
       RoutePlan.vehicle_efficiency_kwh_per_100km p;
     RoutePlan.current_soc_percent := RoutePlan.current_soc_percent p;
     RoutePlan.target_arrival_soc_percent := target;
     RoutePlan.total_distance_km := RoutePlan.total_distance_km p;
     RoutePlan.estimated_duration_minutes := RoutePlan.estimated_duration_minutes p;
     RoutePlan.stops := RoutePlan.stops p |}.

(* ================================================================== *)
(** ** Concrete inputs

    The three demo stations that [seed_data] inserts (lines 85-89; the
    ids stand for the ObjectIds the store assigns), and a few requests
    between the same two points of the equator: (0, 0) and its antipode
    (0, 180), half the circumference apart. *)

Definition downtown : StationDoc :=
  {| doc_id := Some "650000000000000000000001";
     doc_name := Some "Ampora Supercharge - Downtown";
     doc_latitude := Some 37.7749;
     doc_longitude := Some (-122.4194);
     doc_power_kw := Some 150 |}.

Definition silicon_valley : StationDoc :=
  {| doc_id := Some "650000000000000000000002";
     doc_name := Some "GreenVolt Hub - Silicon Valley";
     doc_latitude := Some 37.3875;
     doc_longitude := Some (-122.0575);
     doc_power_kw := Some 100 |}.

Definition bay_bridge : StationDoc :=
  {| doc_id := Some "650000000000000000000003";
     doc_name := Some "ChargeX Express - Bay Bridge";
     doc_latitude := Some 37.798;
     doc_longitude := Some (-122.377);
     doc_power_kw := Some 250 |}.

Definition seed_db : Database := Some [downtown; silicon_valley; bay_bridge].

(** A document without a power rating, and a second 250 kW station. *)
Definition unrated : StationDoc :=
  {| doc_id := Some "650000000000000000000004";
     doc_name := Some "Roadside socket";
     doc_latitude := None;
     doc_longitude := None;
     doc_power_kw := None |}.

Definition harbour : StationDoc :=
  {| doc_id := Some "650000000000000000000005";
     doc_name := Some "Harbour Fast Charge";
     doc_latitude := Some 37.8;
     doc_longitude := Some (-122.4);
     doc_power_kw := Some 250 |}.

(** Two stations tie at 250 kW; one station of two has no rating. *)
Definition tie_db : Database := Some [downtown; bay_bridge; harbour].

Definition mixed_db : Database := Some [unrated; silicon_valley].

Definition trip (lat1 lng1 lat2 lng2 battery efficiency soc : R) : TripRequest :=
  {| origin_lat := lat1;
     origin_lng := lng1;
     dest_lat := lat2;
     dest_lng := lng2;
     vehicle_battery_kwh := battery;
     vehicle_efficiency_kwh_per_100km := efficiency;
     current_soc_percent := soc;
     target_arrival_soc_percent := 10 |}.

(** Half way round the equator with a 75 kWh battery at 90%: 375 km of
    reach against some 20 000 km. *)
Definition far_trip : TripRequest := trip 0 0 0 180 75 18 90.

(** The same route with a battery large enough to cover it. *)
Definition tanker_trip : TripRequest := trip 0 0 0 180 10000 18 100.

(** The same route with the efficiency field at 0. *)
Definition zero_efficiency_trip : TripRequest := trip 0 0 0 180 75 0 90.

(** Origin and destination coincide; the battery field is negative, which
    [TripRequest] does not exclude. *)
Definition negative_battery_trip : TripRequest := trip 0 0 0 0 (-10) 10 0.

(* ================================================================== *)
(** ** The distance estimator in binary64

    Lines 176-181 once more, now on IEEE 754 binary64 numbers with their
    rounding ([PrimFloat]): what the interpreter computes, as opposed to
    the exact arithmetic of [haversine_km] above.  The functions of the C
    library behind [math.sin], [math.cos], [math.atan2] and the float
    power [**] are not part of the repository; the estimator takes them
    as a [Libm]. *)

Module Binary64.

Import PrimFloat.
Local Open Scope float_scope.

Record Libm : Type := {
  sin : float -> float;
  cos : float -> float;
  atan2 : float -> float -> float;
  pow : float -> float -> float
}.

(** [math.pi], and [math.radians]: [x * (pi / 180.0)]. *)
Definition pi : float := 0x1.921fb54442d18p+1.

Definition radians (x : float) : float := x * (pi / 180).

(** [math.sqrt]: a negative argument is a domain error; [-0.0] and NaN
    are not. *)
Definition math_sqrt (x : float) : Outcome float :=
  if x <? 0 then Raise (ValueError "math domain error")
  else Return (sqrt x).

(** The variable [a] of line 179. *)
Definition hav_a (m : Libm) (lat1 lng1 lat2 lng2 : float) : float :=
  let dlat := radians (lat2 - lat1) in
  let dlon := radians (lng2 - lng1) in
  pow m (sin m (dlat / 2)) 2
  + cos m (radians lat1) * cos m (radians lat2) * pow m (sin m (dlon / 2)) 2.

Definition haversine_km (m : Libm) (lat1 lng1 lat2 lng2 : float) : Outcome float :=
  let a := hav_a m lat1 lng1 lat2 lng2 in
  sa <- math_sqrt a ;;
  sb <- math_sqrt (1 - a) ;;
  let c := 2 * atan2 m sa sb in
  Return (6371 * c).

(** The values glibc's [sin], [cos] and [pow] return at the arguments
    that the trip from (8, 0) to (-8, 180) sends them (the nearest
    binary64 numbers to the exact values); NaN elsewhere. *)
Definition sample_sin (x : float) : float :=
  if x =? -0x1.1df46a2529d39p-3 then -0x1.1d06c968d9e19p-3
  else if x =? 0x1.921fb54442d18p+0 then 1
  else nan.

Definition sample_cos (x : float) : float :=
  if x =? 0x1.1df46a2529d39p-3 then 0x1.fb046a930947ap-1
  else if x =? -0x1.1df46a2529d39p-3 then 0x1.fb046a930947ap-1
  else nan.

Definition sample_pow (x y : float) : float :=
  if y =? 2 then
    if x =? -0x1.1d06c968d9e19p-3 then 0x1.3d581ca184804p-6
    else if x =? 1 then 1
    else nan
  else nan.

Definition sample_libm : Libm :=
  {| sin := sample_sin;
     cos := sample_cos;
     atan2 := fun _ _ => nan;
     pow := sample_pow |}.

End Binary64.

(* ================================================================== *)
(** ** Feasibility in binary64

    Lines 176-205 once more on binary64 numbers: the request as the
    interpreter holds it, every operation with its rounding.  Here the
    quotient [efficiency / 100] of line 184 is [0.0] also for the
    smallest positive efficiencies, whose hundredth underflows, and
    line 185 then takes the fallback. *)

Module Binary64Trip.

Import PrimFloat FloatOps SpecFloat.
Local Open Scope float_scope.

(** [class TripRequest(BaseModel)], its fields as binary64 numbers. *)
Record TripRequest : Type := {
  origin_lat : float;
  origin_lng : float;
  dest_lat : float;
  dest_lng : float;
  vehicle_battery_kwh : float;
  vehicle_efficiency_kwh_per_100km : float;
  current_soc_percent : float;
  target_arrival_soc_percent : float
}.

(** [class RoutePlanStop(BaseModel)] and [class RoutePlan(BaseModel)]. *)
Record RoutePlanStop : Type := {
  station_id : string;
  station_name : string;
  latitude : float;
  longitude : float;
  charge_minutes : Z;
  notes : option string
}.

Module RoutePlan.

Record t : Type := {
  origin_lat : float;
  origin_lng : float;
  dest_lat : float;
  dest_lng : float;
  vehicle_battery_kwh : float;
  vehicle_efficiency_kwh_per_100km : float;
  current_soc_percent : float;
  target_arrival_soc_percent : float;
  total_distance_km : float;
  estimated_duration_minutes : Z;
  stops : list RoutePlanStop
}.

End RoutePlan.

(** The real number a binary64 number denotes, [m * 2^e] with its sign;
    the infinities and NaN denote none and are given 0. *)
Definition value (x : float) : R :=
  match Prim2SF x with
  | S754_finite s m e =>
      let z := if s then Z.neg m else Z.pos m in
      match e with
      | Z.neg k => (IZR z / IZR (2 ^ Z.pos k))%R
      | _ => IZR (z * 2 ^ e)
      end
  | _ => 0%R
  end.

(** [bool(x)] of a float: false for [0.0] and [-0.0] only. *)
Definition truthy (x : float) : bool := negb (x =? 0).

(** [x / y] on floats. *)
Definition truediv (x y : float) : Outcome float :=
  if y =? 0 then Raise (ZeroDivisionError "float division by zero")
  else Return (x / y).

(** [int(x)]: truncation towards zero, exact on every finite number. *)
Definition int (x : float) : Outcome Z :=
  match Prim2SF x with
  | S754_nan => Raise (ValueError "cannot convert float NaN to integer")
  | S754_infinity _ =>
      Raise (OverflowError "cannot convert float infinity to integer")
  | S754_zero _ => Return 0%Z
  | S754_finite s m e =>
      let z := if s then Z.neg m else Z.pos m in
      match e with
      | Z.neg k => Return (Z.quot z (2 ^ Z.pos k))
      | _ => Return (z * 2 ^ e)%Z
      end
  end.

(** The integer nearest to [m * 2^e] for [m >= 0], ties to the even
    one. *)
Definition nearest_even (m e : Z) : Z :=
  match e with
  | Z.neg k =>
      let q := (m / 2 ^ Z.pos k)%Z in
      let r := (m mod 2 ^ Z.pos k)%Z in
      match (2 * r ?= 2 ^ Z.pos k)%Z with
      | Lt => q
      | Gt => (q + 1)%Z
      | Eq => if Z.even q then q else (q + 1)%Z
      end
  | _ => (m * 2 ^ e)%Z
  end.

(** [round(x, 1)]: the binary64 number nearest to [n / 10], where [n]
    is the integer nearest to ten times the exact value of [x] (ties to
    even); the sign of [x] is kept, and an infinity or NaN is returned
    as it is. *)
Definition round1 (x : float) : float :=
  match Prim2SF x with
  | S754_finite s m e =>
      match nearest_even (10 * Z.pos m) e with
      | Z.pos n =>
          SF2Prim (SFdiv prec emax (S754_finite s n 0) (S754_finite false 10 0))
      | _ => SF2Prim (S754_zero s)
      end
  | _ => x
  end.

(** Lines 183-185. *)
Definition usable_kwh (req : TripRequest) : float :=
  vehicle_battery_kwh req * (current_soc_percent req / 100).

Definition kwh_per_km (req : TripRequest) : float :=
  vehicle_efficiency_kwh_per_100km req / 100.

Definition max_km_now (req : TripRequest) (distance_km : float) : Outcome float :=
  if truthy (kwh_per_km req) then truediv (usable_kwh req) (kwh_per_km req)
  else Return distance_km.

(** The [RoutePlan(...)] call of lines 192-204. *)
Definition make_plan (req : TripRequest) (distance_km : float)
    (duration_minutes : Z) (stops : list RoutePlanStop) : RoutePlan.t :=
  {| RoutePlan.origin_lat := origin_lat req;
     RoutePlan.origin_lng := origin_lng req;
     RoutePlan.dest_lat := dest_lat req;
     RoutePlan.dest_lng := dest_lng req;
     RoutePlan.vehicle_battery_kwh := vehicle_battery_kwh req;
     RoutePlan.vehicle_efficiency_kwh_per_100km :=
       vehicle_efficiency_kwh_per_100km req;
     RoutePlan.current_soc_percent := current_soc_percent req;
     RoutePlan.target_arrival_soc_percent := target_arrival_soc_percent req;
     RoutePlan.total_distance_km := round1 distance_km;
     RoutePlan.estimated_duration_minutes := duration_minutes;
     RoutePlan.stops := stops |}.

(** Where line 205 leaves a request: the plan it returns, or, the test
    of line 190 having failed, the distance with which line 207 goes on
    to the stations.  (What follows raises the 400 or returns a plan to
    which a stop was appended.) *)
Inductive Step : Type :=
| Returned (plan : RoutePlan.t)
| NeedsStop (distance_km : float).

(** Lines 176-205.  [1.05] is the binary64 number 0x1.0cccccccccccdp+0,
    and [max_km_now >= distance_km * 1.05] is false when either side is
    NaN. *)
Definition plan_trip (m : Binary64.Libm) (req : TripRequest) : Outcome Step :=
  distance_km <- Binary64.haversine_km m (origin_lat req) (origin_lng req)
                                         (dest_lat req) (dest_lng req) ;;
  max_km <- max_km_now req distance_km ;;
  let stops : list RoutePlanStop := [] in
  if distance_km * 0x1.0cccccccccccdp+0 <=? max_km then
    duration_minutes <- int (distance_km / 90 * 60) ;;
    Return (Returned (make_plan req distance_km duration_minutes stops))
  else Return (NeedsStop distance_km).

(** The values of the C library at the arguments that a trip from
    (0, 0) to (0, 180) sends it (the nearest binary64 numbers to the
    exact values); NaN elsewhere. *)
Definition equator_sin (x : float) : float :=
  if x =? 0 then 0
  else if x =? 0x1.921fb54442d18p+0 then 1
  else nan.

Definition equator_cos (x : float) : float :=
  if x =? 0 then 1 else nan.

Definition equator_atan2 (y x : float) : float :=
  if (y =? 1) && (x =? 0) then 0x1.921fb54442d18p+0 else nan.

Definition equator_pow (x y : float) : float :=
  if y =? 2 then
    if x =? 0 then 0
    else if x =? 1 then 1
    else nan
  else nan.

Definition equator_libm : Binary64.Libm :=
  {| Binary64.sin := equator_sin;
     Binary64.cos := equator_cos;
     Binary64.atan2 := equator_atan2;
     Binary64.pow := equator_pow |}.

Definition trip (lat1 lng1 lat2 lng2 battery efficiency soc : float) : TripRequest :=
  {| origin_lat := lat1;
     origin_lng := lng1;
     dest_lat := lat2;
     dest_lng := lng2;
     vehicle_battery_kwh := battery;
     vehicle_efficiency_kwh_per_100km := efficiency;
     current_soc_percent := soc;
     target_arrival_soc_percent := 10 |}.

(** Half way round the equator with a battery that covers it. *)
Definition tanker_trip : TripRequest := trip 0 0 0 180 10000 18 100.

(** The same route with a 75 kWh battery at 90% and the efficiency
    1e-323, which is the binary64 number 2^-1073. *)
Definition tiny_efficiency_trip : TripRequest := trip 0 0 0 180 75 0x1p-1073 90.

End Binary64Trip.

(** The request a binary64 request stands for in exact arithmetic:
    every field by the number it denotes. *)
Definition exact_request (req : Binary64Trip.TripRequest) : TripRequest :=
  {| origin_lat := Binary64Trip.value (Binary64Trip.origin_lat req);
     origin_lng := Binary64Trip.value (Binary64Trip.origin_lng req);
     dest_lat := Binary64Trip.value (Binary64Trip.dest_lat req);
     dest_lng := Binary64Trip.value (Binary64Trip.dest_lng req);
     vehicle_battery_kwh :=
       Binary64Trip.value (Binary64Trip.vehicle_battery_kwh req);
     vehicle_efficiency_kwh_per_100km :=
       Binary64Trip.value (Binary64Trip.vehicle_efficiency_kwh_per_100km req);
     current_soc_percent :=
       Binary64Trip.value (Binary64Trip.current_soc_percent req);
     target_arrival_soc_percent :=
       Binary64Trip.value (Binary64Trip.target_arrival_soc_percent req) |}.

(* ================================================================== *)
(** ** Variations of a request *)

(** The same request with another battery capacity. *)
Definition with_battery (req : TripRequest) (battery : R) : TripRequest :=
  {| origin_lat := origin_lat req;
     origin_lng := origin_lng req;
     dest_lat := dest_lat req;
     dest_lng := dest_lng req;
     vehicle_battery_kwh := battery;
     vehicle_efficiency_kwh_per_100km := vehicle_efficiency_kwh_per_100km req;
     current_soc_percent := current_soc_percent req;
     target_arrival_soc_percent := target_arrival_soc_percent req |}.

(** The way back: origin and destination exchanged. *)
Definition return_trip (req : TripRequest) : TripRequest :=
  {| origin_lat := dest_lat req;
     origin_lng := dest_lng req;
     dest_lat := origin_lat req;
     dest_lng := origin_lng req;
     vehicle_battery_kwh := vehicle_battery_kwh req;
     vehicle_efficiency_kwh_per_100km := vehicle_efficiency_kwh_per_100km req;
     current_soc_percent := current_soc_percent req;
     target_arrival_soc_percent := target_arrival_soc_percent req |}.

(** What a stop says about the station, apart from its coordinates. *)
Definition stop_station (stop : RoutePlanStop) : string * string * Z :=
  (station_id stop, station_name stop, charge_minutes stop).

(** The charge minutes of all stops of a plan. *)
Definition total_charge_minutes (plan : RoutePlan.t) : Z :=
  fold_right (fun stop acc => (charge_minutes stop + acc)%Z) 0%Z
             (RoutePlan.stops plan).

(** Fifty 100 kW stations, and a 250 kW one after them. *)
Definition crowded_db : Database := Some (repeat silicon_valley 50 ++ [bay_bridge]).

(** An empty battery on the long route, and a trip that ends where it
    starts. *)
Definition empty_battery_trip : TripRequest := trip 0 0 0 180 75 18 0.

Definition round_trip : TripRequest := trip 37.7749 (-122.4194) 37.7749 (-122.4194) 75 18 90.

(** One degree of latitude due north, some 111 km, with 4 kWh left in a
    40 kWh battery: 20 km of reach. *)
Definition northbound_trip : TripRequest := trip 37 (-122) 38 (-122) 40 20 10.

(* ================================================================== *)
(** ** Documents ([src/main.py], lines 60-68)

    A document of the store is a Python [dict] with string keys.  A
    [dict] keeps its keys in insertion order, so the model is the list
    of its items, in that order; [Dict.wf] says that no key occurs twice.
    The values are those the endpoints store and read. *)

Inductive Value : Type :=
| VNone
| VBool (b : bool)
| VInt (n : Z)
| VFloat (x : R)
| VStr (s : string)
| VObjectId (oid : string)
| VDatetime (t : Z).

Definition Doc : Type := list (string * Value).

Module Dict.

(** [d.get(k)]. *)
Fixpoint lookup (k : string) (d : Doc) : option Value :=
  match d with
  | [] => None
  | (k', v) :: d' => if String.eqb k k' then Some v else lookup k d'
  end.

(** [k in d]. *)
Definition contains (k : string) (d : Doc) : bool :=
  match lookup k d with
  | Some _ => true
  | None => false
  end.

(** [d] once [k] is popped. *)
Fixpoint remove (k : string) (d : Doc) : Doc :=
  match d with
  | [] => []
  | (k', v) :: d' =>
      if String.eqb k k' then remove k d' else (k', v) :: remove k d'
  end.

(** [d[k] = v]: an existing key keeps its place, a new one goes last. *)
Fixpoint setitem (k : string) (v : Value) (d : Doc) : Doc :=
  match d with
  | [] => [(k, v)]
  | (k', v') :: d' =>
      if String.eqb k k' then (k, v) :: d' else (k', v') :: setitem k v d'
  end.

Definition keys (d : Doc) : list string := map fst d.

Definition wf (d : Doc) : Prop := NoDup (keys d).

End Dict.

(** [serialize(doc)]; [str] is the built-in applied to the popped
    [_id].  [None] and the empty dict are falsy and returned as they
    are. *)
Definition serialize (str : Value -> string) (doc : option Doc) : option Doc :=
  match doc with
  | None => None
  | Some [] => Some []
  | Some d =>
      match Dict.lookup "_id" d with
      | Some oid =>
          Some (Dict.setitem "id" (VStr (str oid)) (Dict.remove "_id" d))
      | None => Some d
      end
  end.

(** A [str] for the examples: an ObjectId prints as its hex digits, a
    string as itself, [None] and the booleans as Python spells them (the
    examples use no other value as an id). *)
Definition sample_str (v : Value) : string :=
  match v with
  | VObjectId oid => oid
  | VStr s => s
  | VNone => "None"
  | VBool true => "True"
  | VBool false => "False"
  | _ => ""
  end.

(** A stored vehicle that has a field [id] of its own. *)
Definition legacy_vehicle : Doc :=
  [("_id", VObjectId "650000000000000000000009");
   ("user_email", VStr "ada@example.org");
   ("id", VStr "legacy-7");
   ("make", VStr "Kia")].

(* ================================================================== *)
(** ** The health endpoint ([test_database], lines 28-57) *)

(** A Python [str] where its characters are counted: the list of its
    characters, each with the bytes that encode it.  [spell] is the text
    they make up. *)
Definition Chars : Type := list string.

Definition spell (s : Chars) : string := String.concat "" s.

(** What [test_database] reads of the [db] object: its [name] attribute
    when it has one, and what [list_collection_names()] does, the names
    or the [str] of the exception it raised. *)
Record DbProbe : Type := {
  probe_name : option string;
  probe_collections : Chars + list string
}.

Module Report.

Record t : Type := {
  backend : string;
  database : string;
  database_url : option string;
  database_name : option string;
  connection_status : string;
  collections : list string
}.

Definition set_database (v : string) (r : t) : t :=
  {| backend := backend r; database := v; database_url := database_url r;
     database_name := database_name r;
     connection_status := connection_status r; collections := collections r |}.

Definition set_database_url (v : string) (r : t) : t :=
  {| backend := backend r; database := database r; database_url := Some v;
     database_name := database_name r;
     connection_status := connection_status r; collections := collections r |}.

Definition set_database_name (v : string) (r : t) : t :=
  {| backend := backend r; database := database r;
     database_url := database_url r; database_name := Some v;
     connection_status := connection_status r; collections := collections r |}.

Definition set_connection_status (v : string) (r : t) : t :=
  {| backend := backend r; database := database r;
     database_url := database_url r; database_name := database_name r;
     connection_status := v; collections := collections r |}.

Definition set_collections (v : list string) (r : t) : t :=
  {| backend := backend r; database := database r;
     database_url := database_url r; database_name := database_name r;
     connection_status := connection_status r; collections := v |}.

End Report.

(** ["... Set" if os.getenv(var) else "... Not Set"]: an empty value is
    falsy. *)
Definition env_flag (environ : string -> option string) (var : string) : string :=
  match environ var with
  | Some "" => "❌ Not Set"
  | Some _ => "✅ Set"
  | None => "❌ Not Set"
  end.

(** [test_database()].  The statements of the outer [try] are attribute
    reads and item assignments, so its handler (line 53) is never
    entered; the inner handler is the [inl] case.  [str(e)[:80]] is the
    first 80 characters of the message. *)
Definition test_database (environ : string -> option string)
    (db : option DbProbe) : Report.t :=
  let response :=
    {| Report.backend := "✅ Running";
       Report.database := "❌ Not Available";
       Report.database_url := None;
       Report.database_name := None;
       Report.connection_status := "Not Connected";
       Report.collections := [] |} in
  let response :=
    match db with
    | Some handle =>
        let response := Report.set_database "✅ Available" response in
        let response := Report.set_database_url "✅ Configured" response in
        let response :=
          Report.set_database_name (get (probe_name handle) "✅ Connected")
            response in
        let response := Report.set_connection_status "Connected" response in
        match probe_collections handle with
        | inr names =>
            let response := Report.set_collections (firstn 20 names) response in
            Report.set_database "✅ Connected & Working" response
        | inl message =>
            Report.set_database
              ("⚠️  Connected but Error: " ++ spell (firstn 80 message))%string
              response
        end
    | None => Report.set_database "⚠️  Available but not initialized" response
    end in
  let response :=
    Report.set_database_url (env_flag environ "DATABASE_URL") response in
  let response :=
    Report.set_database_name (env_flag environ "DATABASE_NAME") response in
  response.

(* ================================================================== *)
(** ** The store behind the endpoints

    The [database] module ([db], [create_document], [get_documents]) is
    not among the sources.  [db] is read as [None] or a store: for every
    collection name the documents it holds, in the order [find] yields
    them.  The operations [main.py] calls on it directly ([find_one],
    [update_one] with [$inc], [count_documents]) are the driver's;
    [create_document] and [get_documents] are taken as parameters. *)

Definition Store : Type := string -> list Doc.

Inductive Failure : Type :=
| HTTPError (status_code : Z) (detail : string)
| TypeError (msg : string)
| InvalidId (oid : string)
| WriteError (msg : string)
| StoreError (msg : string).

Inductive Res (A : Type) : Type :=
| Ok (a : A)
| Err (e : Failure).

Arguments Ok {A} a.
Arguments Err {A} e.

(** [db[c]] replaced by [docs]. *)
Definition put (c : string) (docs : list Doc) (store : Store) : Store :=
  fun c' => if String.eqb c' c then docs else store c'.

(** The filter [{"_id": ObjectId(...)}]. *)
Definition has_id (oid : string) (d : Doc) : bool :=
  match Dict.lookup "_id" d with
  | Some (VObjectId oid') => String.eqb oid' oid
  | _ => false
  end.

(** [collection.find_one({"_id": oid})]. *)
Definition find_one (coll : list Doc) (oid : string) : option Doc :=
  find (has_id oid) coll.

(** [{"$inc": {k: amount}}] applied to one document: an absent field
    is created with the amount, a field that holds no number is a write
    error. *)
Definition inc_field (k : string) (amount : Z) (d : Doc) : Res Doc :=
  match Dict.lookup k d with
  | None => Ok (Dict.setitem k (VInt amount) d)
  | Some (VInt n) => Ok (Dict.setitem k (VInt (n + amount)) d)
  | Some (VFloat x) => Ok (Dict.setitem k (VFloat (x + IZR amount)) d)
  | Some _ =>
      Err (WriteError "Cannot apply $inc to a value of non-numeric type")
  end.

(** [collection.update_one({"_id": oid}, {"$inc": {k: amount}})]: the
    first document that matches is updated, no match is no error. *)
Fixpoint update_one_inc (oid : string) (k : string) (amount : Z)
    (coll : list Doc) : Res (list Doc) :=
  match coll with
  | [] => Ok []
  | d :: rest =>
      if has_id oid d then
        match inc_field k amount d with
        | Ok d' => Ok (d' :: rest)
        | Err e => Err e
        end
      else
        match update_one_inc oid k amount rest with
        | Ok rest' => Ok (d :: rest')
        | Err e => Err e
        end
  end.

(** [class BookingRequest(BaseModel)] (lines 127-133); [start_time], a
    [datetime], is kept as a time stamp. *)
Module BookingRequest.

Record t : Type := {
  user_email : string;
  station_id : string;
  vehicle_make : option string;
  vehicle_model : option string;
  start_time : Z;
  duration_minutes : Z
}.

Definition optional (s : option string) : Value :=
  match s with
  | Some v => VStr v
  | None => VNone
  end.

(** [b.model_dump()]: the fields in the order of their declaration. *)
Definition model_dump (b : t) : Doc :=
  [("user_email", VStr (user_email b));
   ("station_id", VStr (station_id b));
   ("vehicle_make", optional (vehicle_make b));
   ("vehicle_model", optional (vehicle_model b));
   ("start_time", VDatetime (start_time b));
   ("duration_minutes", VInt (duration_minutes b))].

End BookingRequest.

Section Endpoints.

(** [bson.ObjectId(s)]: the id for a well-formed [s], [None] where it
    raises [InvalidId]. *)
Variable ObjectId : string -> option string.

(** [create_document(collection_name, data)] on a store: the new
    document's id, or what it raised, and the store it leaves. *)
Variable create_document : string -> Doc -> Store -> Res string * Store.

(** [get_documents(collection_name, filter, limit)]: the documents it
    returns, or what it raised. *)
Variable get_documents : string -> Doc -> option Z -> Res (list Doc).

Variable str : Value -> string.

(** Lines 143-146: [{**b.model_dump(), "status": "reserved"}]. *)
Definition booking_data (b : BookingRequest.t) : Doc :=
  Dict.setitem "status" (VStr "reserved") (BookingRequest.model_dump b).

(** [create_booking(b)] (lines 135-152): the response, or what was
    raised, and the store afterwards.  [db["chargingstation"]] is
    evaluated before the argument of [find_one]. *)
Definition create_booking (db : option Store) (b : BookingRequest.t)
    : Res Doc * option Store :=
  match db with
  | None => (Err (TypeError "'NoneType' object is not subscriptable"), None)
  | Some store =>
      match ObjectId (BookingRequest.station_id b) with
      | None => (Err (InvalidId (BookingRequest.station_id b)), Some store)
      | Some oid =>
          match find_one (store "chargingstation") oid with
          | None => (Err (HTTPError 404 "Station not found"), Some store)
          | Some station =>
              let data := booking_data b in
              match create_document "booking" data store with
              | (Err e, store) => (Err e, Some store)
              | (Ok booking_id, store) =>
                  match update_one_inc oid "available_ports" (-1)
                          (store "chargingstation") with
                  | Err e => (Err e, Some store)
                  | Ok coll =>
                      (Ok [("id", VStr booking_id)],
                       Some (put "chargingstation" coll store))
                  end
              end
          end
      end
  end.

(** [for doc in docs: create_document(c, doc)]. *)
Fixpoint create_all (c : string) (docs : list Doc) (store : Store)
    : Res unit * Store :=
  match docs with
  | [] => (Ok tt, store)
  | doc :: rest =>
      match create_document c doc store with
      | (Err e, store) => (Err e, store)
      | (Ok _, store) => create_all c rest store
      end
  end.

(** The demo data of [seed_data] (lines 77-89). *)
Definition seed_plans : list Doc :=
  [[("name", VStr "Basic"); ("monthly_fee_usd", VInt 0);
    ("kwh_included", VInt 0); ("overage_price_per_kwh", VFloat 0.39)];
   [("name", VStr "Plus"); ("monthly_fee_usd", VFloat 9.99);
    ("kwh_included", VInt 50); ("overage_price_per_kwh", VFloat 0.33)];
   [("name", VStr "Pro"); ("monthly_fee_usd", VFloat 19.99);
    ("kwh_included", VInt 120); ("overage_price_per_kwh", VFloat 0.29)]].

Definition seed_stations : list Doc :=
  [[("name", VStr "Ampora Supercharge - Downtown"); ("operator", VStr "Ampora");
    ("latitude", VFloat 37.7749); ("longitude", VFloat (-122.4194));
    ("power_kw", VInt 150); ("price_per_kwh", VFloat 0.35);
    ("available_ports", VInt 6); ("city", VStr "San Francisco")];
   [("name", VStr "GreenVolt Hub - Silicon Valley"); ("operator", VStr "GreenVolt");
    ("latitude", VFloat 37.3875); ("longitude", VFloat (-122.0575));
    ("power_kw", VInt 100); ("price_per_kwh", VFloat 0.32);
    ("available_ports", VInt 4); ("city", VStr "Mountain View")];
   [("name", VStr "ChargeX Express - Bay Bridge"); ("operator", VStr "ChargeX");
    ("latitude", VFloat 37.798); ("longitude", VFloat (-122.377));
    ("power_kw", VInt 250); ("price_per_kwh", VFloat 0.41);
    ("available_ports", VInt 8); ("city", VStr "San Francisco")]].

(** [seed_data()] (lines 72-91); [count_documents({}) == 0] is
    emptiness of the collection. *)
Definition seed_data (db : option Store) : Res unit * option Store :=
  match db with
  | None => (Ok tt, None)
  | Some store =>
      let '(r, store) :=
        match store "plan" with
        | [] => create_all "plan" seed_plans store
        | _ :: _ => (Ok tt, store)
        end in
      match r with
      | Err e => (Err e, Some store)
      | Ok _ =>
          let '(r, store) :=
            match store "chargingstation" with
            | [] => create_all "chargingstation" seed_stations store
            | _ :: _ => (Ok tt, store)
            end in
          (r, Some store)
      end
  end.

(** [{key: value} if value else {}]: [None] and the empty string are
    falsy. *)
Definition query (key : string) (value : option string) : Doc :=
  match value with
  | None => []
  | Some "" => []
  | Some v => [(key, VStr v)]
  end.

(** [[serialize(d) for d in get_documents(c, q, limit)]]. *)
Definition listing (c : string) (q : Doc) (limit : option Z)
    : Res (list (option Doc)) :=
  match get_documents c q limit with
  | Ok docs => Ok (map (fun d => serialize str (Some d)) docs)
  | Err e => Err e
  end.

(** Lines 107-110, 114-117, 121-123 and 154-157. *)
Definition list_vehicles (user_email : option string) : Res (list (option Doc)) :=
  listing "vehicle" (query "user_email" user_email) None.

Definition list_stations (city : option string) (limit : Z) : Res (list (option Doc)) :=
  listing "chargingstation" (query "city" city) (Some limit).

Definition list_plans : Res (list (option Doc)) :=
  listing "plan" [] None.

Definition list_bookings (user_email : option string) : Res (list (option Doc)) :=
  listing "booking" (query "user_email" user_email) None.

End Endpoints.

(** The station document as [plan_trip] reads it: the five keys it
    asks for with [get], each absent when the document lacks it.  A key
    that holds a null or a value of another type is read as absent as
    well; [typed_station] below singles out the documents that have no
    such key. *)
Definition number (v : option Value) : option R :=
  match v with
  | Some (VInt n) => Some (IZR n)
  | Some (VFloat x) => Some x
  | _ => None
  end.

Definition text (v : option Value) : option string :=
  match v with
  | Some (VStr s) => Some s
  | _ => None
  end.

Definition station_doc (str : Value -> string) (d : Doc) : StationDoc :=
  {| doc_id := option_map str (Dict.lookup "_id" d);
     doc_name := text (Dict.lookup "name" d);
     doc_latitude := number (Dict.lookup "latitude" d);
     doc_longitude := number (Dict.lookup "longitude" d);
     doc_power_kw := number (Dict.lookup "power_kw" d) |}.

(** The planner's view of [db]. *)
Definition planner_db (str : Value -> string) (db : option Store) : Database :=
  option_map (fun store => map (station_doc str) (store "chargingstation")) db.

(** The station documents of which [station_doc] is what [plan_trip]
    reads: [power_kw], [latitude] and [longitude] hold a number or are
    absent, and [name] holds a string or is absent.  (Of a null, or a
    value of another type, [get] returns that value, and the comparison
    or the construction of the stop raises.) *)
Definition number_or_absent (v : option Value) : bool :=
  match v with
  | None | Some (VInt _) | Some (VFloat _) => true
  | Some _ => false
  end.

Definition text_or_absent (v : option Value) : bool :=
  match v with
  | None | Some (VStr _) => true
  | Some _ => false
  end.

Definition typed_station (d : Doc) : Prop :=
  number_or_absent (Dict.lookup "power_kw" d) = true
  /\ number_or_absent (Dict.lookup "latitude" d) = true
  /\ number_or_absent (Dict.lookup "longitude" d) = true
  /\ text_or_absent (Dict.lookup "name" d) = true.

(** A stored document that has the fields of [data], whatever [_id] it
    got. *)
Definition stored_as (data doc : Doc) : Prop :=
  forall k v, k <> "_id" -> Dict.lookup k data = Some v ->
              Dict.lookup k doc = Some v.

(** [create_document] as an insertion: the document goes last in its
    collection with the fields it was given, and the other collections
    stay as they are. *)
Definition inserts
    (create_document : string -> Doc -> Store -> Res string * Store) : Prop :=
  forall c data store i store',
    create_document c data store = (Ok i, store') ->
    (exists doc, store' c = store c ++ [doc] /\ stored_as data doc)
    /\ (forall c', c' <> c -> store' c' = store c').

(** Stand-ins for the parameters, for the examples: an [ObjectId] that
    accepts the strings of 24 characters, and a [create_document] that
    appends the document, under one fixed id, to its collection. *)
Definition sample_object_id (s : string) : option string :=
  if Nat.eqb (String.length s) 24 then Some s else None.

Definition sample_create (c : string) (data : Doc) (store : Store)
    : Res string * Store :=
  let oid := "65000000000000000000ffff" in
  (Ok oid, put c (store c ++ [Dict.setitem "_id" (VObjectId oid) data]) store).

Definition empty_store : Store := fun _ => [].

(** A store with one station whose ports are all taken. *)
Definition full_station : Doc :=
  [("_id", VObjectId "650000000000000000000003");
   ("name", VStr "ChargeX Express - Bay Bridge");
   ("power_kw", VInt 250);
   ("available_ports", VInt 0)].

Definition busy_store : Store := put "chargingstation" [full_station] empty_store.

(** The same station with a null in place of the port count. *)
Definition unmetered_station : Doc :=
  [("_id", VObjectId "650000000000000000000003");
   ("name", VStr "ChargeX Express - Bay Bridge");
   ("power_kw", VInt 250);
   ("available_ports", VNone)].

Definition unmetered_store : Store :=
  put "chargingstation" [unmetered_station] empty_store.

Definition sample_booking : BookingRequest.t :=
  {| BookingRequest.user_email := "ada@example.org";
     BookingRequest.station_id := "650000000000000000000003";
     BookingRequest.vehicle_make := Some "Kia";
     BookingRequest.vehicle_model := None;
     BookingRequest.start_time := 1767225600;
     BookingRequest.duration_minutes := 30 |}.

(* ================================================================== *)
(** ** The distance estimator in exact arithmetic *)

Lemma sin_sq_le_1 (x : R) : 0 <= sin x ^ 2 <= 1.
Proof.
  pose proof (sin2_cos2 x) as H. unfold Rsqr in H.
  split; nra.
Qed.

(** [cos p * cos q] through the half sum and the half difference. *)
Lemma cos_cos_half (p q : R) :
  cos p * cos q = cos ((q + p) / 2) ^ 2 - sin ((q - p) / 2) ^ 2.
Proof.
  set (u := (q - p) / 2). set (v := (q + p) / 2).
  replace p with (v - u) by (unfold u, v; lra).
  replace q with (v + u) at 1 by (unfold u, v; lra).
  rewrite cos_minus, cos_plus.
  pose proof (sin2_cos2 u) as Hu. pose proof (sin2_cos2 v) as Hv.
  unfold Rsqr in Hu, Hv. nra.
Qed.

(** The argument of both square roots lies in [0, 1] for all
    coordinates, also outside the geographic ranges. *)
Lemma hav_a_bounds (lat1 lng1 lat2 lng2 : R) :
  0 <= hav_a lat1 lng1 lat2 lng2 <= 1.
Proof.
  unfold hav_a.
  replace (radians (lat2 - lat1)) with (radians lat2 - radians lat1)
    by (unfold radians; lra).
  rewrite cos_cos_half.
  pose proof (sin_sq_le_1 ((radians lat2 - radians lat1) / 2)) as Hu.
  pose proof (sin_sq_le_1 (radians (lng2 - lng1) / 2)) as Ht.
  pose proof (sin2_cos2 ((radians lat2 + radians lat1) / 2)) as Hv.
  pose proof (sin_sq_le_1 ((radians lat2 + radians lat1) / 2)) as Hsv.
  unfold Rsqr in Hv.
  set (su := sin ((radians lat2 - radians lat1) / 2) ^ 2) in *.
  set (t := sin (radians (lng2 - lng1) / 2) ^ 2) in *.
  set (cv := cos ((radians lat2 + radians lat1) / 2) ^ 2) in *.
  assert (Hcv : 0 <= cv <= 1) by (unfold cv; nra).
  split; nra.
Qed.

Lemma math_sqrt_nonneg (x : R) : 0 <= x -> math_sqrt x = Return (sqrt x).
Proof.
  intros Hx. unfold math_sqrt.
  destruct (Rlt_dec x 0) as [Hneg | _]; [lra | reflexivity].
Qed.

(** The distance estimator never raises. *)
Lemma haversine_returns (lat1 lng1 lat2 lng2 : R) :
  haversine_km lat1 lng1 lat2 lng2 = Return (great_circle_km lat1 lng1 lat2 lng2).
Proof.
  pose proof (hav_a_bounds lat1 lng1 lat2 lng2) as Ha.
  unfold haversine_km, great_circle_km.
  fold (hav_a lat1 lng1 lat2 lng2).
  rewrite (math_sqrt_nonneg _ (proj1 Ha)). cbn [bind].
  rewrite math_sqrt_nonneg by lra. reflexivity.
Qed.

Lemma atan_nonneg (z : R) : 0 <= z -> 0 <= atan z.
Proof.
  intros [Hz | Hz].
  - left. rewrite <- atan_0. now apply atan_increasing.
  - subst z. rewrite atan_0. lra.
Qed.

(** On the closed first quadrant [atan2] stays within [0, PI/2]. *)
Lemma atan2_quadrant (y x : R) :
  0 <= y -> 0 <= x -> 0 <= atan2 y x <= PI / 2.
Proof.
  intros Hy Hx. unfold atan2. pose proof PI_RGT_0 as Hpi.
  destruct (Rlt_dec 0 x) as [Hpos | Hnpos].
  - split.
    + apply atan_nonneg. unfold Rdiv.
      apply Rmult_le_pos; [lra | left; apply Rinv_0_lt_compat; lra].
    + left. apply atan_bound.
  - destruct (Rlt_dec x 0) as [Hneg | _]; [lra |].
    destruct (Rlt_dec 0 y) as [_ | _]; [lra |].
    destruct (Rlt_dec y 0) as [Hyn | _]; lra.
Qed.

Lemma great_circle_bounds (lat1 lng1 lat2 lng2 : R) :
  0 <= great_circle_km lat1 lng1 lat2 lng2 <= 6371 * PI.
Proof.
  unfold great_circle_km. cbv zeta.
  pose proof (atan2_quadrant (sqrt (hav_a lat1 lng1 lat2 lng2))
                (sqrt (1 - hav_a lat1 lng1 lat2 lng2))
                (sqrt_pos _) (sqrt_pos _)) as H.
  lra.
Qed.

Lemma trip_km_nonneg (req : TripRequest) : 0 <= trip_km req.
Proof. unfold trip_km. apply great_circle_bounds. Qed.

Lemma hav_a_sym (lat1 lng1 lat2 lng2 : R) :
  hav_a lat2 lng2 lat1 lng1 = hav_a lat1 lng1 lat2 lng2.
Proof.
  unfold hav_a.
  replace (radians (lat1 - lat2) / 2) with (- (radians (lat2 - lat1) / 2))
    by (unfold radians; lra).
  replace (radians (lng1 - lng2) / 2) with (- (radians (lng2 - lng1) / 2))
    by (unfold radians; lra).
  rewrite !sin_neg. ring.
Qed.

Lemma hav_a_same (lat lng : R) : hav_a lat lng lat lng = 0.
Proof.
  unfold hav_a.
  replace (radians (lat - lat) / 2) with 0 by (unfold radians; lra).
  replace (radians (lng - lng) / 2) with 0 by (unfold radians; lra).
  rewrite sin_0. ring.
Qed.

Lemma atan2_0_1 : atan2 0 1 = 0.
Proof.
  unfold atan2. destruct (Rlt_dec 0 1) as [_ | H]; [| lra].
  replace (0 / 1) with 0 by lra. apply atan_0.
Qed.

Lemma great_circle_same (lat lng : R) : great_circle_km lat lng lat lng = 0.
Proof.
  unfold great_circle_km. cbv zeta. rewrite hav_a_same.
  replace (1 - 0) with 1 by lra.
  rewrite sqrt_0, sqrt_1, atan2_0_1. lra.
Qed.

(** C7. The distance estimator is symmetric, [haversine_km] from A to B
    returns what it returns from B to A, and the distance from a point to
    itself is 0. *)
Theorem haversine_symmetric (lat1 lng1 lat2 lng2 : R) :
  haversine_km lat1 lng1 lat2 lng2 = haversine_km lat2 lng2 lat1 lng1
  /\ haversine_km lat1 lng1 lat1 lng1 = Return 0.
Proof.
  rewrite !haversine_returns. split.
  - f_equal. unfold great_circle_km. cbv zeta.
    now rewrite (hav_a_sym lat1 lng1 lat2 lng2).
  - f_equal. apply great_circle_same.
Qed.

(* ================================================================== *)
(** ** The descending stable sort and its first element *)

Section SortedReverseFacts.

Variable A : Type.
Variable key : A -> R.

Lemma insert_desc_perm (x : A) (l : list A) :
  Permutation (insert_desc key x l) (x :: l).
Proof.
  induction l as [| y l IH]; cbn.
  - apply Permutation_refl.
  - destruct (Rle_dec (key y) (key x)).
    + apply Permutation_refl.
    + eapply Permutation_trans; [apply perm_skip, IH | apply perm_swap].
Qed.

(** The sort returns the elements it was given. *)
Lemma sorted_reverse_perm (l : list A) : Permutation (sorted_reverse key l) l.
Proof.
  induction l as [| x l IH]; cbn.
  - apply perm_nil.
  - eapply Permutation_trans; [apply insert_desc_perm | now apply perm_skip].
Qed.

Lemma insert_desc_sorted (x : A) (l : list A) :
  Sorted (desc key) l -> Sorted (desc key) (insert_desc key x l).
Proof.
  induction 1 as [| y l Hs IH Hhd]; cbn.
  - repeat constructor.
  - destruct (Rle_dec (key y) (key x)) as [Hle | Hnle].
    + constructor; [now constructor | now constructor].
    + constructor; [exact IH |].
      destruct l as [| z l]; cbn.
      * constructor. unfold desc. lra.
      * destruct (Rle_dec (key z) (key x)).
        -- constructor. unfold desc. lra.
        -- constructor. now inversion Hhd.
Qed.

(** Keys never increase along the result. *)
Lemma sorted_reverse_sorted (l : list A) : Sorted (desc key) (sorted_reverse key l).
Proof.
  induction l as [| x l IH]; cbn.
  - constructor.
  - now apply insert_desc_sorted.
Qed.

Lemma insert_desc_stable (k : R) (x : A) (l : list A) :
  filter (has_key key k) (insert_desc key x l) = filter (has_key key k) (x :: l).
Proof.
  induction l as [| y l IH]; cbn [insert_desc].
  - reflexivity.
  - destruct (Rle_dec (key y) (key x)) as [Hle | Hnle]; [reflexivity |].
    cbn [filter] in *. rewrite IH.
    unfold has_key.
    destruct (Req_dec_T (key y) k) as [Hy | Hy];
      destruct (Req_dec_T (key x) k) as [Hx | Hx]; try reflexivity.
    exfalso. apply Hnle. lra.
Qed.

(** The sort is stable: the elements of any one key come out in the
    order they went in. *)
Lemma sorted_reverse_stable (k : R) (l : list A) :
  filter (has_key key k) (sorted_reverse key l) = filter (has_key key k) l.
Proof.
  induction l as [| x l IH]; cbn [sorted_reverse fold_right].
  - reflexivity.
  - fold (sorted_reverse key l). rewrite insert_desc_stable.
    cbn [filter]. now rewrite IH.
Qed.

(** The head of the sorted list is the first maximum of the input. *)
Lemma index0_sorted_reverse (l : list A) :
  index0 (sorted_reverse key l)
  = match first_max key l with
    | Some m => Return m
    | None => Raise (IndexError "list index out of range")
    end.
Proof.
  induction l as [| x l IH]; cbn [sorted_reverse fold_right first_max].
  - reflexivity.
  - fold (sorted_reverse key l).
    destruct (sorted_reverse key l) as [| y s]; cbn [insert_desc index0] in *.
    + destruct (first_max key l); [discriminate | reflexivity].
    + destruct (first_max key l) as [m |]; [| discriminate].
      injection IH as ->.
      destruct (Rle_dec (key m) (key x)); reflexivity.
Qed.

Lemma first_max_nonempty (l : list A) :
  l <> [] -> exists m, first_max key l = Some m.
Proof.
  destruct l as [| x l]; [congruence | intros _]. cbn.
  destruct (first_max key l) as [m |]; [| eauto].
  destruct (Rle_dec (key m) (key x)); eauto.
Qed.

(** What "first maximum" says: everything before it is strictly smaller,
    nothing after it is larger. *)
Lemma first_max_split (l : list A) (m : A) :
  first_max key l = Some m ->
  exists l1 l2,
    l = l1 ++ m :: l2
    /\ (forall x, In x l1 -> key x < key m)
    /\ (forall x, In x l2 -> key x <= key m).
Proof.
  revert m. induction l as [| x l IH]; intros m Hm; [discriminate |].
  cbn in Hm. destruct (first_max key l) as [m' |] eqn:Hl.
  - destruct (IH m' eq_refl) as (l1 & l2 & -> & Hlt & Hle).
    destruct (Rle_dec (key m') (key x)) as [Hx | Hx]; injection Hm as <-.
    + exists [], (l1 ++ m' :: l2). split; [reflexivity |].
      split; [intros y [] |].
      intros y Hy. apply in_app_or in Hy as [Hy | [<- | Hy]].
      * specialize (Hlt y Hy). lra.
      * exact Hx.
      * specialize (Hle y Hy). lra.
    + exists (x :: l1), l2. split; [reflexivity |].
      split; [| exact Hle].
      intros y [<- | Hy]; [lra | now apply Hlt].
  - injection Hm as <-. destruct l as [| y l].
    + exists [], []. split; [reflexivity |]. split; intros y [].
    + exfalso. destruct (first_max_nonempty (y :: l)) as [m' Hm']; congruence.
Qed.

Lemma first_max_In (l : list A) (m : A) : first_max key l = Some m -> In m l.
Proof.
  intros H. destruct (first_max_split l m H) as (l1 & l2 & -> & _).
  apply in_or_app. right. now left.
Qed.

Lemma first_max_is_max (l : list A) (m : A) :
  first_max key l = Some m -> forall x, In x l -> key x <= key m.
Proof.
  intros H x Hx. destruct (first_max_split l m H) as (l1 & l2 & -> & Hlt & Hle).
  apply in_app_or in Hx as [Hx | [<- | Hx]].
  - specialize (Hlt x Hx). lra.
  - lra.
  - now apply Hle.
Qed.

(** Conversely the split determines the first maximum. *)
Lemma first_max_of_split (l1 l2 : list A) (m : A) :
  (forall x, In x l1 -> key x < key m) ->
  (forall x, In x l2 -> key x <= key m) ->
  first_max key (l1 ++ m :: l2) = Some m.
Proof.
  intros Hlt Hle. induction l1 as [| x l1 IH]; cbn.
  - destruct (first_max key l2) as [m' |] eqn:Hm'; [| reflexivity].
    destruct (Rle_dec (key m') (key m)) as [_ | Hn]; [reflexivity |].
    exfalso. apply Hn, Hle. eapply first_max_In, Hm'.
  - rewrite IH by (intros y Hy; apply Hlt; now right).
    destruct (Rle_dec (key m) (key x)) as [Hx | _]; [| reflexivity].
    specialize (Hlt x (or_introl eq_refl)). lra.
Qed.

End SortedReverseFacts.

(* ================================================================== *)
(** ** [plan_trip], branch by branch *)

Lemma truthy_nonzero (x : R) : x <> 0 -> truthy x = true.
Proof.
  intros Hx. unfold truthy. destruct (Req_dec_T x 0); [contradiction | reflexivity].
Qed.

Lemma truthy_zero : truthy 0 = false.
Proof.
  unfold truthy. destruct (Req_dec_T 0 0); [reflexivity | congruence].
Qed.

(** The guarded division of line 185 never raises. *)
Lemma max_km_now_returns (req : TripRequest) :
  max_km_now req (trip_km req) = Return (reach_km req).
Proof.
  unfold max_km_now, reach_km. cbv zeta.
  unfold truthy, truediv.
  destruct (Req_dec_T (vehicle_efficiency_kwh_per_100km req / 100) 0);
    reflexivity.
Qed.

Lemma select_station_first_max (stations : list StationDoc) :
  select_station stations
  = match first_max power_key stations with
    | Some st => Return st
    | None => Raise (IndexError "list index out of range")
    end.
Proof. apply index0_sorted_reverse. Qed.

(** The three ways out of [plan_trip]. *)
Lemma plan_trip_cases (db : Database) (req : TripRequest) :
  plan_trip db req
  = if Rge_dec (reach_km req) (trip_km req * 1.05)
    then Return (direct_plan req)
    else match first_max power_key (find_stations db) with
         | None => Raise (HTTPException 400 "No stations available to plan route")
         | Some st => Return (stop_plan req st)
         end.
Proof.
  unfold plan_trip.
  rewrite haversine_returns. cbn [bind]. fold (trip_km req).
  rewrite max_km_now_returns. cbn [bind].
  destruct (Rge_dec (reach_km req) (trip_km req * 1.05)); [reflexivity |].
  destruct (find_stations db) as [| s l] eqn:Hst; [reflexivity |].
  rewrite select_station_first_max.
  destruct (first_max_nonempty _ power_key (s :: l)) as [st Hm]; [discriminate |].
  rewrite Hm. reflexivity.
Qed.

Lemma plan_trip_direct (db : Database) (req : TripRequest) :
  feasible req -> plan_trip db req = Return (direct_plan req).
Proof.
  intros Hf. rewrite plan_trip_cases.
  destruct (Rge_dec (reach_km req) (trip_km req * 1.05)); [reflexivity |].
  contradiction.
Qed.

Lemma plan_trip_stop (db : Database) (req : TripRequest) (st : StationDoc) :
  ~ feasible req ->
  first_max power_key (find_stations db) = Some st ->
  plan_trip db req = Return (stop_plan req st).
Proof.
  intros Hf Hm. rewrite plan_trip_cases.
  destruct (Rge_dec (reach_km req) (trip_km req * 1.05)); [contradiction |].
  now rewrite Hm.
Qed.

Lemma plan_trip_no_stations (db : Database) (req : TripRequest) :
  ~ feasible req ->
  find_stations db = [] ->
  plan_trip db req = Raise (HTTPException 400 "No stations available to plan route").
Proof.
  intros Hf Hm. rewrite plan_trip_cases.
  destruct (Rge_dec (reach_km req) (trip_km req * 1.05)); [contradiction |].
  now rewrite Hm.
Qed.

(** With a positive efficiency the reach of line 185 is the
    specification's quotient. *)
Lemma reach_km_spec (req : TripRequest) :
  vehicle_efficiency_kwh_per_100km req > 0 ->
  reach_km req = spec_max_reachable_km req.
Proof.
  intros He. unfold reach_km, spec_max_reachable_km. cbv zeta.
  rewrite truthy_nonzero by lra. field. lra.
Qed.

Lemma reach_km_zero_efficiency (req : TripRequest) :
  vehicle_efficiency_kwh_per_100km req = 0 ->
  reach_km req = trip_km req.
Proof.
  intros He. unfold reach_km. cbv zeta. rewrite He.
  replace (0 / 100) with 0 by lra. now rewrite truthy_zero.
Qed.

(** A plan without stops is returned exactly on the feasible branch. *)
Lemma direct_iff_feasible (db : Database) (req : TripRequest) :
  (exists plan, plan_trip db req = Return plan /\ RoutePlan.stops plan = [])
  <-> feasible req.
Proof.
  rewrite plan_trip_cases. unfold feasible.
  destruct (Rge_dec (reach_km req) (trip_km req * 1.05)) as [Hf | Hf].
  - split; [trivial | intros _]. now exists (direct_plan req).
  - split; [| contradiction]. intros (plan & Hp & Hs).
    destruct (first_max power_key (find_stations db)); [| discriminate].
    injection Hp as <-. discriminate.
Qed.

(* ================================================================== *)
(** ** Distances of the concrete requests *)

Lemma atan2_1_0 : atan2 1 0 = PI / 2.
Proof.
  unfold atan2.
  destruct (Rlt_dec 0 0) as [H | _]; [lra |].
  destruct (Rlt_dec 0 1) as [_ | H]; [reflexivity | lra].
Qed.

(** From (0, 0) to (0, 180): half the circumference. *)
Lemma great_circle_antipode : great_circle_km 0 0 0 180 = 6371 * PI.
Proof.
  assert (Ha : hav_a 0 0 0 180 = 1).
  { unfold hav_a.
    replace (radians (0 - 0) / 2) with 0 by (unfold radians; lra).
    replace (radians 0) with 0 by (unfold radians; lra).
    replace (radians (180 - 0) / 2) with (PI / 2) by (unfold radians; lra).
    rewrite sin_0, cos_0, sin_PI2. ring. }
  unfold great_circle_km. cbv zeta. rewrite Ha.
  replace (1 - 1) with 0 by lra.
  rewrite sqrt_0, sqrt_1, atan2_1_0. lra.
Qed.

Lemma PI_between : 3 < PI <= 4.
Proof.
  split; [| apply PI_4]. pose proof PI2_3_2. lra.
Qed.

Lemma trip_km_antipode (battery efficiency soc : R) :
  trip_km (trip 0 0 0 180 battery efficiency soc) = 6371 * PI.
Proof. unfold trip_km, trip. cbn. apply great_circle_antipode. Qed.

Lemma trip_km_same (lat lng battery efficiency soc : R) :
  trip_km (trip lat lng lat lng battery efficiency soc) = 0.
Proof. unfold trip_km, trip. cbn. apply great_circle_same. Qed.

Lemma far_trip_infeasible : reach_km far_trip < trip_km far_trip * 1.05.
Proof.
  unfold far_trip. rewrite trip_km_antipode.
  rewrite reach_km_spec by (cbn; lra).
  unfold spec_max_reachable_km, trip. cbn.
  pose proof PI_between. lra.
Qed.

Lemma tanker_trip_reach :
  spec_max_reachable_km tanker_trip >= trip_km tanker_trip * 1.05.
Proof.
  unfold tanker_trip. rewrite trip_km_antipode.
  unfold spec_max_reachable_km, trip. cbn.
  pose proof PI_between. lra.
Qed.

Lemma seed_first_max :
  first_max power_key (find_stations seed_db) = Some bay_bridge.
Proof.
  apply (first_max_of_split _ power_key [downtown; silicon_valley] [] bay_bridge).
  - intros s [<- | [<- | []]]; cbn; lra.
  - intros s [].
Qed.

Lemma tie_first_max :
  first_max power_key (find_stations tie_db) = Some bay_bridge.
Proof.
  apply (first_max_of_split _ power_key [downtown] [harbour] bay_bridge).
  - intros s [<- | []]; cbn; lra.
  - intros s [<- | []]; cbn; lra.
Qed.

Lemma first_max_none (A : Type) (key : A -> R) (l : list A) :
  first_max key l = None -> l = [].
Proof.
  destruct l as [| x l]; [reflexivity | intros H].
  destruct (first_max_nonempty A key (x :: l)) as [m Hm]; congruence.
Qed.

Lemma not_feasible_iff (req : TripRequest) :
  ~ feasible req <-> reach_km req < trip_km req * 1.05.
Proof. unfold feasible. split; intros H; lra. Qed.

(* ================================================================== *)
(** ** The direct plan *)

(** In exact arithmetic a positive efficiency with a reach (battery x
    SOC / 100 over efficiency / 100) of at least 1.05 times the distance
    gives the direct plan.  The interpreter's numbers are binary64;
    [Binary64TripFacts] below has what holds of them. *)
Lemma direct_plan_in_exact_arithmetic (db : Database) (req : TripRequest) :
  vehicle_efficiency_kwh_per_100km req > 0 ->
  spec_max_reachable_km req >= trip_km req * 1.05 ->
  exists plan,
    plan_trip db req = Return plan
    /\ RoutePlan.stops plan = []
    /\ RoutePlan.estimated_duration_minutes plan = int (trip_km req / 90 * 60)
    /\ RoutePlan.total_distance_km plan = round1 (trip_km req).
Proof.
  intros He Hreach. exists (direct_plan req).
  split; [| repeat split].
  apply plan_trip_direct. unfold feasible.
  now rewrite reach_km_spec.
Qed.

(** Truncation of a ratio of integers, and of an integer. *)
Lemma Int_part_ratio (a b : Z) :
  (0 < b)%Z -> Int_part (IZR a / IZR b) = (a / b)%Z.
Proof.
  intros Hb. symmetry. apply Int_part_spec.
  pose proof (Z.div_mod a b ltac:(lia)) as Hdiv.
  pose proof (Z.mod_pos_bound a b Hb) as [Hlo Hhi].
  assert (HbR : 0 < IZR b) by now apply IZR_lt.
  assert (Ha : IZR a = IZR b * IZR (a / b) + IZR (a mod b)).
  { rewrite <- mult_IZR, <- plus_IZR. now f_equal. }
  apply IZR_le in Hlo. apply IZR_lt in Hhi.
  replace (IZR a / IZR b) with (IZR (a / b) + IZR (a mod b) / IZR b)
    by (rewrite Ha; field; lra).
  assert (0 <= IZR (a mod b) / IZR b < 1).
  { split.
    - unfold Rdiv. apply Rmult_le_pos; [exact Hlo |].
      left. now apply Rinv_0_lt_compat.
    - apply Rmult_lt_reg_r with (IZR b); [exact HbR |].
      unfold Rdiv. rewrite Rmult_assoc, Rinv_l by lra. lra. }
  lra.
Qed.

Lemma int_ratio (a b : Z) : (0 < b)%Z -> int (IZR a / IZR b) = Z.quot a b.
Proof.
  intros Hb. unfold int.
  assert (HbR : 0 < IZR b) by now apply IZR_lt.
  assert (Hinv : 0 < / IZR b) by now apply Rinv_0_lt_compat.
  destruct (Rle_dec 0 (IZR a / IZR b)) as [Hpos | Hneg].
  - assert (Ha : (0 <= a)%Z).
    { apply le_IZR. apply Rmult_le_reg_r with (/ IZR b); [exact Hinv |].
      unfold Rdiv in Hpos. lra. }
    rewrite Int_part_ratio by exact Hb.
    symmetry. apply Z.quot_div_nonneg; lia.
  - assert (Ha : (a < 0)%Z).
    { apply Z.lt_nge. intros Hge. apply Hneg.
      unfold Rdiv. apply Rmult_le_pos; [now apply IZR_le | lra]. }
    replace (- (IZR a / IZR b)) with (IZR (- a) / IZR b)
      by (rewrite opp_IZR; field; lra).
    rewrite Int_part_ratio by exact Hb.
    rewrite <- (Z.opp_involutive a) at 2. rewrite Z.quot_opp_l by lia.
    f_equal. symmetry. apply Z.quot_div_nonneg; lia.
Qed.

Lemma int_IZR (a : Z) : int (IZR a) = a.
Proof.
  replace (IZR a) with (IZR a / IZR 1) by (simpl; field).
  rewrite int_ratio by lia. apply Z.quot_1_r.
Qed.

Module Binary64TripFacts.

Import PrimFloat FloatOps SpecFloat.
Local Open Scope float_scope.

(** [int] returns on every finite number. *)
Lemma int_of_finite (x : float) :
  is_finite x = true -> exists n, Binary64Trip.int x = Return n.
Proof.
  unfold is_finite. intros H.
  apply negb_true_iff, orb_false_iff in H. destruct H as [Hnan Hinf].
  unfold Binary64Trip.int, Prim2SF. rewrite Hnan.
  destruct (is_zero x); [eexists; reflexivity |].
  rewrite Hinf.
  destruct (Z.frexp x) as [r ex].
  destruct (shr_fexp prec emax (Uint63Axioms.to_Z (normfr_mantissa r))
              (ex - prec) loc_Exact) as [shr e'].
  destruct (shr_m shr) as [| p | p]; try (eexists; reflexivity).
  destruct e'; eexists; reflexivity.
Qed.

(** What [int] returns is the number its argument denotes, truncated
    towards zero. *)
Lemma int_truncates (x : float) (n : Z) :
  Binary64Trip.int x = Return n -> n = Py.int (Binary64Trip.value x).
Proof.
  unfold Binary64Trip.int, Binary64Trip.value.
  destruct (Prim2SF x) as [sg | sg | | s m e]; try discriminate.
  - intros [= <-]. symmetry. apply (int_IZR 0).
  - destruct e as [| p | k]; intros [= <-]; cbv zeta; symmetry.
    + apply int_IZR.
    + apply int_IZR.
    + apply int_ratio. change (0 < 2 ^ Z.pos k)%Z.
      apply Z.pow_pos_nonneg; lia.
Qed.

(** The numbers that the fields of the sample requests denote. *)
Ltac spec_of_float :=
  unfold Binary64Trip.value;
  match goal with
  | |- context [Prim2SF ?x] =>
      let t := eval vm_compute in (Prim2SF x) in
      change (Prim2SF x) with t
  end;
  cbv beta iota zeta.

Ltac power_of_two :=
  match goal with
  | |- context [(2 ^ Z.pos ?k)%Z] =>
      let v := eval vm_compute in (2 ^ Z.pos k)%Z in
      change (2 ^ Z.pos k)%Z with v
  end.

Lemma value_0 : Binary64Trip.value 0 = 0%R.
Proof. spec_of_float. reflexivity. Qed.

Lemma value_10 : Binary64Trip.value 10 = 10%R.
Proof. spec_of_float. power_of_two. lra. Qed.

Lemma value_75 : Binary64Trip.value 75 = 75%R.
Proof. spec_of_float. power_of_two. lra. Qed.

Lemma value_90 : Binary64Trip.value 90 = 90%R.
Proof. spec_of_float. power_of_two. lra. Qed.

Lemma value_180 : Binary64Trip.value 180 = 180%R.
Proof. spec_of_float. power_of_two. lra. Qed.

Lemma value_tiny : Binary64Trip.value 0x1p-1073 = (2 / IZR (2 ^ 1074))%R.
Proof. spec_of_float. reflexivity. Qed.

(** The request with the efficiency 1e-323, read in exact arithmetic. *)
Lemma exact_tiny_efficiency_trip :
  exact_request Binary64Trip.tiny_efficiency_trip
  = trip 0 0 0 180 75 (2 / IZR (2 ^ 1074)) 90.
Proof.
  unfold exact_request, Binary64Trip.tiny_efficiency_trip, Binary64Trip.trip, trip.
  cbn [Binary64Trip.origin_lat Binary64Trip.origin_lng Binary64Trip.dest_lat
       Binary64Trip.dest_lng Binary64Trip.vehicle_battery_kwh
       Binary64Trip.vehicle_efficiency_kwh_per_100km
       Binary64Trip.current_soc_percent
       Binary64Trip.target_arrival_soc_percent].
  now rewrite value_0, value_10, value_75, value_90, value_180, value_tiny.
Qed.

(** C1, the failing input.  The request from (0, 0) to (0, 180) with a
    75 kWh battery at 90% and the efficiency 1e-323 satisfies the
    premises of the claim.  Of the numbers its fields denote, the
    efficiency is positive, and the reach, 67.5 kWh over 2^-1073 / 100
    kWh per km, is far above 1.05 times the distance; the same holds of
    the binary64 numbers, where the quotient of the claim is 67.5 / 0.0,
    plus infinity.  But with the energy per km 0.0 line 185 takes the
    fallback, the reach is the distance itself, the test of line 190
    fails and no direct plan is returned: the request goes on to the
    stations. *)
Lemma tiny_efficiency_gets_no_direct_plan :
  (vehicle_efficiency_kwh_per_100km
     (exact_request Binary64Trip.tiny_efficiency_trip) > 0)%R
  /\ (spec_max_reachable_km (exact_request Binary64Trip.tiny_efficiency_trip)
      >= trip_km (exact_request Binary64Trip.tiny_efficiency_trip) * 1.05)%R
  /\ (0 <? Binary64Trip.vehicle_efficiency_kwh_per_100km
             Binary64Trip.tiny_efficiency_trip) = true
  /\ Binary64.haversine_km Binary64Trip.equator_libm 0 0 0 180
     = Return 0x1.38bc58e10e572p+14
  /\ (0x1.38bc58e10e572p+14 * 0x1.0cccccccccccdp+0
      <=? Binary64Trip.vehicle_battery_kwh Binary64Trip.tiny_efficiency_trip
          * Binary64Trip.current_soc_percent Binary64Trip.tiny_efficiency_trip
          / 100
          / (Binary64Trip.vehicle_efficiency_kwh_per_100km
               Binary64Trip.tiny_efficiency_trip / 100)) = true
  /\ Binary64Trip.kwh_per_km Binary64Trip.tiny_efficiency_trip = 0
  /\ Binary64Trip.plan_trip Binary64Trip.equator_libm
       Binary64Trip.tiny_efficiency_trip
     = Return (Binary64Trip.NeedsStop 0x1.38bc58e10e572p+14).
Proof.
  rewrite exact_tiny_efficiency_trip, trip_km_antipode.
  unfold spec_max_reachable_km, trip.
  cbn [vehicle_battery_kwh vehicle_efficiency_kwh_per_100km current_soc_percent].
  assert (Hpow : (IZR (2 ^ 1074) >= 8)%R).
  { apply Rle_ge, IZR_le. vm_compute. discriminate. }
  assert (Hinv : (0 < / IZR (2 ^ 1074) <= / 8)%R).
  { split; [apply Rinv_0_lt_compat; lra |].
    apply Rinv_le_contravar; lra. }
  pose proof PI_between as Hpi.
  split; [unfold Rdiv; nra |].
  split.
  { replace (75 * 90 / 100 / (2 / IZR (2 ^ 1074) / 100))%R
      with (3375 * IZR (2 ^ 1074))%R by (field; lra).
    nra. }
  repeat split; reflexivity.
Qed.

(** C1, amended.  When the distance estimator returns [d], the energy
    per km that line 184 computes, [efficiency / 100] rounded to
    binary64, is not zero, the reach that line 185 computes from it,
    [battery * (soc / 100) / (efficiency / 100)], is at least [d * 1.05],
    and the drive time [d / 90 * 60] is finite, [plan_trip] returns a plan
    without stops, whose duration is [d / 90 * 60] truncated to an
    integer (the number that the binary64 result denotes, truncated
    towards zero) and whose total distance is [d] rounded to one
    decimal. *)
Theorem direct_plan_in_binary64
    (m : Binary64.Libm) (req : Binary64Trip.TripRequest) (d : float) :
  Binary64.haversine_km m
    (Binary64Trip.origin_lat req) (Binary64Trip.origin_lng req)
    (Binary64Trip.dest_lat req) (Binary64Trip.dest_lng req) = Return d ->
  Binary64Trip.truthy (Binary64Trip.kwh_per_km req) = true ->
  (d * 0x1.0cccccccccccdp+0
   <=? Binary64Trip.usable_kwh req / Binary64Trip.kwh_per_km req) = true ->
  is_finite (d / 90 * 60) = true ->
  exists plan n,
    Binary64Trip.plan_trip m req = Return (Binary64Trip.Returned plan)
    /\ Binary64Trip.RoutePlan.stops plan = []
    /\ Binary64Trip.int (d / 90 * 60) = Return n
    /\ n = Py.int (Binary64Trip.value (d / 90 * 60))
    /\ Binary64Trip.RoutePlan.estimated_duration_minutes plan = n
    /\ Binary64Trip.RoutePlan.total_distance_km plan = Binary64Trip.round1 d.
Proof.
  intros Hd Hkwh Hreach Hfin.
  destruct (int_of_finite _ Hfin) as [n Hn].
  exists (Binary64Trip.make_plan req d n []), n.
  split; [| repeat split; [exact Hn | exact (int_truncates _ _ Hn)]].
  unfold Binary64Trip.plan_trip. rewrite Hd. cbn [bind].
  unfold Binary64Trip.max_km_now, Binary64Trip.truediv. rewrite Hkwh.
  unfold Binary64Trip.truthy in Hkwh. apply negb_true_iff in Hkwh.
  rewrite Hkwh. cbn [bind]. rewrite Hreach, Hn. reflexivity.
Qed.

Lemma direct_plan_in_binary64_witness :
  Binary64Trip.int (0x1.38bc58e10e572p+14 / 90 * 60) = Return 13343%Z
  /\ Binary64Trip.round1 0x1.38bc58e10e572p+14 = 0x1.38bc666666666p+14
  /\ exists plan n,
       Binary64Trip.plan_trip Binary64Trip.equator_libm Binary64Trip.tanker_trip
       = Return (Binary64Trip.Returned plan)
       /\ Binary64Trip.RoutePlan.stops plan = []
       /\ Binary64Trip.int (0x1.38bc58e10e572p+14 / 90 * 60) = Return n
       /\ n = Py.int (Binary64Trip.value (0x1.38bc58e10e572p+14 / 90 * 60))
       /\ Binary64Trip.RoutePlan.estimated_duration_minutes plan = n
       /\ Binary64Trip.RoutePlan.total_distance_km plan
          = Binary64Trip.round1 0x1.38bc58e10e572p+14.
Proof.
  split; [reflexivity |]. split; [reflexivity |].
  apply (direct_plan_in_binary64 Binary64Trip.equator_libm
           Binary64Trip.tanker_trip 0x1.38bc58e10e572p+14);
    reflexivity.
Defined.

End Binary64TripFacts.

(* ================================================================== *)
(** ** The stop selector *)



(** The failures of the exact-arithmetic model.  When the reach is below
    1.05 times the distance and no station is returned, [plan_trip]
    raises [HTTPException(400, "No stations available to plan route")];
    with real numbers in place of binary64 it raises this exactly then
    and nothing else, because the square roots are taken of numbers in
    [0, 1] ([hav_a_bounds]) and the division is guarded.  The binary64
    estimator does not share the first of these facts: see
    [Binary64Facts.antipodal_domain_error]. *)
Lemma exact_arithmetic_failures (db : Database) (req : TripRequest) :
  (plan_trip db req
   = Raise (HTTPException 400 "No stations available to plan route")
   <-> reach_km req < trip_km req * 1.05 /\ find_stations db = [])
  /\ (forall e,
        plan_trip db req = Raise e ->
        e = HTTPException 400 "No stations available to plan route").
Proof.
  rewrite plan_trip_cases.
  destruct (Rge_dec (reach_km req) (trip_km req * 1.05)) as [Hf | Hf].
  - split; [split |]; try discriminate. intros [Hlt _]. lra.
  - destruct (first_max power_key (find_stations db)) as [st |] eqn:Hm.
    + split; [split |]; try discriminate.
      intros [_ Hnil]. rewrite Hnil in Hm. discriminate.
    + split; [split |].
      * intros _. split; [lra | now apply first_max_none in Hm].
      * reflexivity.
      * intros e [= <-]. reflexivity.
Qed.

(* ================================================================== *)
(** ** The zero-efficiency fallback *)

Lemma zero_efficiency_trip_infeasible : ~ feasible zero_efficiency_trip.
Proof.
  unfold feasible.
  rewrite reach_km_zero_efficiency by reflexivity.
  unfold zero_efficiency_trip. rewrite trip_km_antipode.
  pose proof PI_between. lra.
Qed.




(* ================================================================== *)
(** ** Charge time *)

Lemma charge_minutes_rule (station : StationDoc) :
  charge_minutes_of station
  = match doc_power_kw station with
    | Some p => if Rge_dec p 150 then 25%Z else 35%Z
    | None => 35%Z
    end.
Proof.
  unfold charge_minutes_of. destruct (doc_power_kw station) as [p |]; cbn.
  - reflexivity.
  - destruct (Rge_dec 50 150) as [H | _]; [lra | reflexivity].
Qed.

(** C5. On the infeasible branch with at least one station, the stop's
    charge time is 25 minutes when the selected station's power rating is
    at least 150 kW and 35 minutes otherwise; a selected station without a
    rating counts as 50 kW here and gets 35 minutes. *)
Theorem charge_time_of_selected_station (db : Database) (req : TripRequest) :
  reach_km req < trip_km req * 1.05 ->
  find_stations db <> [] ->
  exists station plan stop,
    select_station (find_stations db) = Return station
    /\ plan_trip db req = Return plan
    /\ RoutePlan.stops plan = [stop]
    /\ charge_minutes stop
       = (if Rge_dec (match doc_power_kw station with
                      | Some p => p
                      | None => 50
                      end) 150
          then 25%Z else 35%Z)
    /\ (doc_power_kw station = None -> charge_minutes stop = 35%Z).
Proof.
  intros Hreach Hne.
  destruct (first_max_nonempty _ power_key _ Hne) as [station Hm].
  exists station, (stop_plan req station), (make_stop req station).
  split; [| split; [| split; [| split]]].
  - rewrite select_station_first_max. now rewrite Hm.
  - apply plan_trip_stop; [now apply not_feasible_iff | exact Hm].
  - reflexivity.
  - reflexivity.
  - intros Hnone. cbn. rewrite charge_minutes_rule. now rewrite Hnone.
Qed.

Lemma charge_time_of_selected_station_witness :
  reach_km far_trip < trip_km far_trip * 1.05
  /\ find_stations mixed_db <> []
  /\ exists station plan stop,
       select_station (find_stations mixed_db) = Return station
       /\ plan_trip mixed_db far_trip = Return plan
       /\ RoutePlan.stops plan = [stop]
       /\ charge_minutes stop
          = (if Rge_dec (match doc_power_kw station with
                         | Some p => p
                         | None => 50
                         end) 150
             then 25%Z else 35%Z)
       /\ (doc_power_kw station = None -> charge_minutes stop = 35%Z).
Proof.
  assert (Hne : find_stations mixed_db <> []) by discriminate.
  split; [exact far_trip_infeasible |]. split; [exact Hne |].
  exact (charge_time_of_selected_station mixed_db far_trip
           far_trip_infeasible Hne).
Defined.

(* ================================================================== *)
(** ** Monotonicity in the state of charge *)

Lemma spec_reach_monotone (req : TripRequest) (soc' : R) :
  vehicle_efficiency_kwh_per_100km req > 0 ->
  0 <= vehicle_battery_kwh req ->
  current_soc_percent req <= soc' ->
  spec_max_reachable_km req <= spec_max_reachable_km (with_soc req soc').
Proof.
  intros He Hb Hs. unfold spec_max_reachable_km, with_soc. cbn.
  set (b := vehicle_battery_kwh req) in *.
  set (e := vehicle_efficiency_kwh_per_100km req) in *.
  set (s := current_soc_percent req) in *.
  apply Rmult_le_compat_r.
  - left. apply Rinv_0_lt_compat. lra.
  - apply Rmult_le_compat_r; [lra |].
    now apply Rmult_le_compat_l.
Qed.

Lemma feasible_monotone (req : TripRequest) (soc' : R) :
  vehicle_efficiency_kwh_per_100km req > 0 ->
  0 <= vehicle_battery_kwh req ->
  current_soc_percent req <= soc' ->
  feasible req -> feasible (with_soc req soc').
Proof.
  intros He Hb Hs. unfold feasible.
  rewrite !reach_km_spec by assumption.
  pose proof (spec_reach_monotone req soc' He Hb Hs) as Hm.
  change (trip_km (with_soc req soc')) with (trip_km req).
  lra.
Qed.

Lemma negative_battery_low_soc_feasible : feasible negative_battery_trip.
Proof.
  unfold feasible, negative_battery_trip. rewrite trip_km_same.
  rewrite reach_km_spec by (cbn; lra).
  unfold spec_max_reachable_km, trip. cbn. lra.
Qed.

Lemma negative_battery_high_soc_infeasible :
  ~ feasible (with_soc negative_battery_trip 50).
Proof.
  unfold feasible.
  change (trip_km (with_soc negative_battery_trip 50))
    with (trip_km negative_battery_trip).
  unfold negative_battery_trip at 2. rewrite trip_km_same.
  rewrite reach_km_spec by (cbn; lra).
  unfold spec_max_reachable_km, negative_battery_trip, with_soc, trip. cbn. lra.
Qed.

(** C6, as the specification states it, fails: [TripRequest] puts no bound
    on the battery field, and with a negative battery a larger state of
    charge means a smaller reach.  At SOC 0 the request is served by the
    direct plan; at SOC 50 the same request gets a stop. *)
Lemma negative_battery_breaks_monotonicity :
  validated negative_battery_trip
  /\ validated (with_soc negative_battery_trip 50)
  /\ vehicle_efficiency_kwh_per_100km negative_battery_trip > 0
  /\ current_soc_percent negative_battery_trip <= 50 <= 100
  /\ plan_trip seed_db negative_battery_trip
     = Return (direct_plan negative_battery_trip)
  /\ RoutePlan.stops (direct_plan negative_battery_trip) = []
  /\ plan_trip seed_db (with_soc negative_battery_trip 50)
     = Return (stop_plan (with_soc negative_battery_trip 50) bay_bridge)
  /\ RoutePlan.stops (stop_plan (with_soc negative_battery_trip 50) bay_bridge)
     <> [].
Proof.
  split; [unfold validated; cbn; lra |].
  split; [unfold validated; cbn; lra |].
  split; [cbn; lra |]. split; [cbn; lra |]. split.
  { apply plan_trip_direct, negative_battery_low_soc_feasible. }
  split; [reflexivity |]. split.
  { apply plan_trip_stop;
      [exact negative_battery_high_soc_infeasible | exact seed_first_max]. }
  discriminate.
Qed.

(** C6, amended. For a fixed origin, destination, efficiency > 0 and
    battery capacity >= 0, if [plan_trip] returns the direct plan at one
    state of charge, it returns the direct plan at every larger one. *)
Theorem feasibility_monotone_in_soc (db : Database) (req : TripRequest) (soc' : R) :
  vehicle_efficiency_kwh_per_100km req > 0 ->
  0 <= vehicle_battery_kwh req ->
  current_soc_percent req <= soc' ->
  (exists plan, plan_trip db req = Return plan /\ RoutePlan.stops plan = []) ->
  exists plan',
    plan_trip db (with_soc req soc') = Return plan'
    /\ RoutePlan.stops plan' = [].
Proof.
  intros He Hb Hs Hdirect.
  apply direct_iff_feasible. apply direct_iff_feasible in Hdirect.
  now apply feasible_monotone.
Qed.

Lemma feasibility_monotone_in_soc_witness :
  exists plan',
    plan_trip seed_db (with_soc (with_soc tanker_trip 90) 100) = Return plan'
    /\ RoutePlan.stops plan' = [].
Proof.
  assert (He : vehicle_efficiency_kwh_per_100km (with_soc tanker_trip 90) > 0)
    by (cbn; lra).
  assert (Hb : 0 <= vehicle_battery_kwh (with_soc tanker_trip 90))
    by (cbn; lra).
  assert (Hs : current_soc_percent (with_soc tanker_trip 90) <= 100)
    by (cbn; lra).
  assert (Hf : feasible (with_soc tanker_trip 90)).
  { unfold feasible. rewrite reach_km_spec by exact He.
    change (trip_km (with_soc tanker_trip 90)) with (trip_km tanker_trip).
    unfold tanker_trip at 2. rewrite trip_km_antipode.
    unfold spec_max_reachable_km, tanker_trip, with_soc, trip. cbn.
    pose proof PI_between. lra. }
  apply (feasibility_monotone_in_soc seed_db (with_soc tanker_trip 90) 100
           He Hb Hs).
  apply direct_iff_feasible. exact Hf.
Defined.

(* ================================================================== *)
(** ** The target state of charge *)

(** C8. [target_arrival_soc_percent] takes no part in the computation:
    changing it in a request changes the outcome of [plan_trip] (for the
    same stations) in the echoed field only; a failure stays the same
    failure, and a returned plan keeps its distance, duration and
    stops. *)
Theorem target_soc_is_only_echoed (db : Database) (req : TripRequest) (target : R) :
  plan_trip db (with_target req target)
  = map_outcome (plan_with_target target) (plan_trip db req).
Proof.
  rewrite !plan_trip_cases.
  change (reach_km (with_target req target)) with (reach_km req).
  change (trip_km (with_target req target)) with (trip_km req).
  destruct (Rge_dec (reach_km req) (trip_km req * 1.05)); [reflexivity |].
  destruct (first_max power_key (find_stations db)); reflexivity.
Qed.

(* ================================================================== *)
(** ** Ties and missing ratings *)

(** C9. Selection under ties is determined by the order of the returned
    stations: when every station before [station] has a strictly smaller
    key and no station after it a larger one, [station] is the one
    selected, so among several stations of maximal power the first wins;
    the underlying descending sort keeps stations of equal power in the
    order they were returned. *)
Theorem first_strongest_station_wins
    (db : Database) (req : TripRequest)
    (before after : list StationDoc) (station : StationDoc) :
  reach_km req < trip_km req * 1.05 ->
  find_stations db = before ++ station :: after ->
  (forall s, In s before -> power_key s < power_key station) ->
  (forall s, In s after -> power_key s <= power_key station) ->
  select_station (find_stations db) = Return station
  /\ plan_trip db req = Return (stop_plan req station)
  /\ (forall k,
        filter (has_key power_key k) (sorted_reverse power_key (find_stations db))
        = filter (has_key power_key k) (find_stations db)).
Proof.
  intros Hreach Hsplit Hbefore Hafter.
  assert (Hm : first_max power_key (find_stations db) = Some station).
  { rewrite Hsplit. now apply first_max_of_split. }
  split; [| split].
  - rewrite select_station_first_max. now rewrite Hm.
  - apply plan_trip_stop; [now apply not_feasible_iff | exact Hm].
  - intros k. apply sorted_reverse_stable.
Qed.

Lemma first_strongest_station_wins_witness :
  select_station (find_stations tie_db) = Return bay_bridge
  /\ plan_trip tie_db far_trip = Return (stop_plan far_trip bay_bridge)
  /\ (forall k,
        filter (has_key power_key k)
               (sorted_reverse power_key (find_stations tie_db))
        = filter (has_key power_key k) (find_stations tie_db)).
Proof.
  apply (first_strongest_station_wins tie_db far_trip
           [downtown] [harbour] bay_bridge far_trip_infeasible eq_refl).
  - intros s [<- | []]; cbn; lra.
  - intros s [<- | []]; cbn; lra.
Defined.

(** C10. A station without a power rating is ranked with key 0 (the
    50 kW default is used for the charge time only), so when some returned
    station has a positive rating, the selected station has a rating. *)
Theorem unrated_station_is_not_selected (db : Database) (req : TripRequest) :
  reach_km req < trip_km req * 1.05 ->
  (exists s p, In s (find_stations db) /\ doc_power_kw s = Some p /\ 0 < p) ->
  (forall s, doc_power_kw s = None ->
             power_key s = 0 /\ get (doc_power_kw s) 50 = 50)
  /\ exists station p,
       select_station (find_stations db) = Return station
       /\ plan_trip db req = Return (stop_plan req station)
       /\ doc_power_kw station = Some p.
Proof.
  intros Hreach (s & p & Hin & Hp & Hpos).
  split.
  { intros u Hu. unfold power_key. now rewrite Hu. }
  assert (Hne : find_stations db <> []) by (intros E; now rewrite E in Hin).
  destruct (first_max_nonempty _ power_key _ Hne) as [station Hm].
  pose proof (first_max_is_max _ _ _ _ Hm s Hin) as Hmax.
  unfold power_key at 1 in Hmax. rewrite Hp in Hmax. cbn in Hmax.
  destruct (doc_power_kw station) as [q |] eqn:Hq.
  - exists station, q. split; [| split].
    + rewrite select_station_first_max. now rewrite Hm.
    + apply plan_trip_stop; [now apply not_feasible_iff | exact Hm].
    + exact Hq.
  - exfalso. unfold power_key in Hmax. rewrite Hq in Hmax. cbn in Hmax. lra.
Qed.

Lemma unrated_station_is_not_selected_witness :
  (forall s, doc_power_kw s = None ->
             power_key s = 0 /\ get (doc_power_kw s) 50 = 50)
  /\ exists station p,
       select_station (find_stations mixed_db) = Return station
       /\ plan_trip mixed_db far_trip = Return (stop_plan far_trip station)
       /\ doc_power_kw station = Some p.
Proof.
  apply (unrated_station_is_not_selected mixed_db far_trip far_trip_infeasible).
  exists silicon_valley, 100. split; [right; left; reflexivity |].
  split; [reflexivity | lra].
Defined.

(* ================================================================== *)
(** ** Further properties of the plan *)

(** In exact arithmetic the distance estimator returns for all
    coordinates, and its result lies between 0 and half the circumference
    of the sphere. *)
Lemma haversine_exact_range (lat1 lng1 lat2 lng2 : R) :
  exists d,
    haversine_km lat1 lng1 lat2 lng2 = Return d /\ 0 <= d <= 6371 * PI.
Proof.
  exists (great_circle_km lat1 lng1 lat2 lng2).
  split; [apply haversine_returns | apply great_circle_bounds].
Qed.

(** A returned plan echoes the eight fields of the request and has at
    most one stop. *)
Theorem plan_echoes_request (db : Database) (req : TripRequest) (plan : RoutePlan.t) :
  plan_trip db req = Return plan ->
  RoutePlan.origin_lat plan = origin_lat req
  /\ RoutePlan.origin_lng plan = origin_lng req
  /\ RoutePlan.dest_lat plan = dest_lat req
  /\ RoutePlan.dest_lng plan = dest_lng req
  /\ RoutePlan.vehicle_battery_kwh plan = vehicle_battery_kwh req
  /\ RoutePlan.vehicle_efficiency_kwh_per_100km plan
     = vehicle_efficiency_kwh_per_100km req
  /\ RoutePlan.current_soc_percent plan = current_soc_percent req
  /\ RoutePlan.target_arrival_soc_percent plan = target_arrival_soc_percent req
  /\ RoutePlan.total_distance_km plan = round1 (trip_km req)
  /\ (List.length (RoutePlan.stops plan) <= 1)%nat.
Proof.
  rewrite plan_trip_cases.
  destruct (Rge_dec (reach_km req) (trip_km req * 1.05)).
  - intros [= <-]. cbn. repeat split; lia.
  - destruct (first_max power_key (find_stations db)); [| discriminate].
    intros [= <-]. cbn. repeat split; lia.
Qed.

Lemma plan_echoes_request_witness :
  RoutePlan.origin_lat (stop_plan far_trip bay_bridge) = origin_lat far_trip
  /\ RoutePlan.origin_lng (stop_plan far_trip bay_bridge) = origin_lng far_trip
  /\ RoutePlan.dest_lat (stop_plan far_trip bay_bridge) = dest_lat far_trip
  /\ RoutePlan.dest_lng (stop_plan far_trip bay_bridge) = dest_lng far_trip
  /\ RoutePlan.vehicle_battery_kwh (stop_plan far_trip bay_bridge)
     = vehicle_battery_kwh far_trip
  /\ RoutePlan.vehicle_efficiency_kwh_per_100km (stop_plan far_trip bay_bridge)
     = vehicle_efficiency_kwh_per_100km far_trip
  /\ RoutePlan.current_soc_percent (stop_plan far_trip bay_bridge)
     = current_soc_percent far_trip
  /\ RoutePlan.target_arrival_soc_percent (stop_plan far_trip bay_bridge)
     = target_arrival_soc_percent far_trip
  /\ RoutePlan.total_distance_km (stop_plan far_trip bay_bridge)
     = round1 (trip_km far_trip)
  /\ (List.length (RoutePlan.stops (stop_plan far_trip bay_bridge)) <= 1)%nat.
Proof.
  apply (plan_echoes_request seed_db far_trip).
  apply plan_trip_stop; [| exact seed_first_max].
  apply not_feasible_iff, far_trip_infeasible.
Defined.

(** The stop carries the selected station's id, name and coordinates,
    with the trip's origin standing in for missing coordinates, and the
    fixed note. *)
Theorem stop_of_selected_station (db : Database) (req : TripRequest) :
  reach_km req < trip_km req * 1.05 ->
  find_stations db <> [] ->
  exists station stop,
    select_station (find_stations db) = Return station
    /\ (exists plan, plan_trip db req = Return plan
                     /\ RoutePlan.stops plan = [stop])
    /\ station_id stop = str_id (doc_id station)
    /\ station_name stop = get (doc_name station) "Station"
    /\ latitude stop = get (doc_latitude station) (origin_lat req)
    /\ longitude stop = get (doc_longitude station) (origin_lng req)
    /\ notes stop = Some "Heuristic stop based on fastest available charger".
Proof.
  intros Hreach Hne.
  destruct (first_max_nonempty _ power_key _ Hne) as [station Hm].
  exists station, (make_stop req station).
  split; [rewrite select_station_first_max; now rewrite Hm |].
  split; [| repeat split].
  exists (stop_plan req station). split; [| reflexivity].
  apply plan_trip_stop; [now apply not_feasible_iff | exact Hm].
Qed.

Lemma stop_of_selected_station_witness :
  exists station stop,
    select_station (find_stations seed_db) = Return station
    /\ (exists plan, plan_trip seed_db far_trip = Return plan
                     /\ RoutePlan.stops plan = [stop])
    /\ station_id stop = str_id (doc_id station)
    /\ station_name stop = get (doc_name station) "Station"
    /\ latitude stop = get (doc_latitude station) (origin_lat far_trip)
    /\ longitude stop = get (doc_longitude station) (origin_lng far_trip)
    /\ notes stop = Some "Heuristic stop based on fastest available charger".
Proof.
  apply (stop_of_selected_station seed_db far_trip far_trip_infeasible).
  discriminate.
Defined.

(* ================================================================== *)
(** ** Antipodal points *)

(** In exact arithmetic the argument [a] is exactly 1 for every pair of
    antipodal points, the largest value it can take. *)
Lemma hav_a_antipodal (lat lng : R) : hav_a lat lng (- lat) (lng + 180) = 1.
Proof.
  unfold hav_a.
  replace (radians (- lat - lat) / 2) with (- radians lat)
    by (unfold radians; lra).
  replace (radians (- lat)) with (- radians lat) by (unfold radians; lra).
  replace (radians (lng + 180 - lng) / 2) with (PI / 2)
    by (unfold radians; lra).
  rewrite sin_neg, cos_neg, sin_PI2.
  pose proof (sin2_cos2 (radians lat)) as H. unfold Rsqr in H. nra.
Qed.

Module Binary64Facts.

Import PrimFloat.
Import Binary64.
Local Open Scope float_scope.

(** C3, the failing input.  In binary64 the sum that is exactly 1 for
    antipodal points rounds to 1 + 2^-52 for the trip from (8, 0) to
    (-8, 180): with the library values at the six arguments below,
    [1 - a] is negative and [math.sqrt] raises the domain error. *)
Theorem antipodal_domain_error (m : Libm) :
  sin m (-0x1.1df46a2529d39p-3) = -0x1.1d06c968d9e19p-3 ->
  sin m 0x1.921fb54442d18p+0 = 1 ->
  cos m 0x1.1df46a2529d39p-3 = 0x1.fb046a930947ap-1 ->
  cos m (-0x1.1df46a2529d39p-3) = 0x1.fb046a930947ap-1 ->
  pow m (-0x1.1d06c968d9e19p-3) 2 = 0x1.3d581ca184804p-6 ->
  pow m 1 2 = 1 ->
  hav_a m 8 0 (-8) 180 = 0x1.0000000000001p+0
  /\ haversine_km m 8 0 (-8) 180 = Raise (ValueError "math domain error").
Proof.
  intros Hs1 Hs2 Hc1 Hc2 Hp1 Hp2.
  assert (Ha : hav_a m 8 0 (-8) 180 = 0x1.0000000000001p+0).
  { unfold hav_a.
    change (radians (-8 - 8) / 2) with (-0x1.1df46a2529d39p-3).
    change (radians (180 - 0) / 2) with 0x1.921fb54442d18p+0.
    change (radians 8) with 0x1.1df46a2529d39p-3.
    change (radians (-8)) with (-0x1.1df46a2529d39p-3).
    rewrite Hs1, Hs2, Hc1, Hc2, Hp1, Hp2. reflexivity. }
  split; [exact Ha |].
  unfold haversine_km. rewrite Ha. reflexivity.
Qed.

Lemma antipodal_domain_error_witness :
  hav_a sample_libm 8 0 (-8) 180 = 0x1.0000000000001p+0
  /\ haversine_km sample_libm 8 0 (-8) 180
     = Raise (ValueError "math domain error").
Proof.
  apply (antipodal_domain_error sample_libm); reflexivity.
Defined.

End Binary64Facts.

(* ================================================================== *)
(** ** Dictionaries *)

Lemma lookup_remove_same (k : string) (d : Doc) :
  Dict.lookup k (Dict.remove k d) = None.
Proof.
  induction d as [| [k' v] d IH]; cbn; [reflexivity |].
  destruct (String.eqb k k') eqn:E; [exact IH |].
  cbn. now rewrite E.
Qed.

Lemma lookup_remove_other (k k' : string) (d : Doc) :
  k' <> k -> Dict.lookup k' (Dict.remove k d) = Dict.lookup k' d.
Proof.
  intros Hne. induction d as [| [k0 v] d IH]; cbn; [reflexivity |].
  destruct (String.eqb k k0) eqn:E.
  - apply String.eqb_eq in E. subst k0.
    destruct (String.eqb k' k) eqn:E'; [| exact IH].
    apply String.eqb_eq in E'. contradiction.
  - cbn. now rewrite IH.
Qed.

Lemma lookup_setitem_same (k : string) (v : Value) (d : Doc) :
  Dict.lookup k (Dict.setitem k v d) = Some v.
Proof.
  induction d as [| [k' v'] d IH]; cbn.
  - now rewrite String.eqb_refl.
  - destruct (String.eqb k k') eqn:E; cbn.
    + now rewrite String.eqb_refl.
    + now rewrite E.
Qed.

Lemma lookup_setitem_other (k k' : string) (v : Value) (d : Doc) :
  k' <> k -> Dict.lookup k' (Dict.setitem k v d) = Dict.lookup k' d.
Proof.
  intros Hne. apply String.eqb_neq in Hne.
  induction d as [| [k0 v0] d IH]; cbn.
  - now rewrite Hne.
  - destruct (String.eqb k k0) eqn:E; cbn.
    + apply String.eqb_eq in E. subst k0. now rewrite Hne.
    + now rewrite IH.
Qed.

Lemma remove_absent (k : string) (d : Doc) :
  Dict.lookup k d = None -> Dict.remove k d = d.
Proof.
  induction d as [| [k' v] d IH]; cbn; [reflexivity |].
  destruct (String.eqb k k'); [discriminate |].
  intros H. now rewrite IH.
Qed.

Lemma keys_remove (k : string) (d : Doc) :
  Dict.keys (Dict.remove k d)
  = filter (fun k' => negb (String.eqb k k')) (Dict.keys d).
Proof.
  unfold Dict.keys.
  induction d as [| [k' v] d IH]; cbn; [reflexivity |].
  destruct (String.eqb k k'); cbn; [exact IH |].
  f_equal. exact IH.
Qed.

Lemma lookup_none_keys (k : string) (d : Doc) :
  Dict.lookup k d = None <-> ~ In k (Dict.keys d).
Proof.
  unfold Dict.keys.
  induction d as [| [k' v] d IH]; cbn.
  - split; [intros _ [] | reflexivity].
  - destruct (String.eqb_spec k k') as [-> | Hne].
    + split; [discriminate | intros H; exfalso; apply H; now left].
    + rewrite IH. split.
      * intros H [E | Hin]; [now apply Hne | now apply H].
      * intros H Hin. apply H. now right.
Qed.

Lemma keys_setitem_new (k : string) (v : Value) (d : Doc) :
  Dict.lookup k d = None -> Dict.keys (Dict.setitem k v d) = Dict.keys d ++ [k].
Proof.
  unfold Dict.keys.
  induction d as [| [k' v'] d IH]; cbn; [reflexivity |].
  destruct (String.eqb k k'); [discriminate |].
  intros H. cbn. now rewrite IH.
Qed.

Lemma keys_setitem_old (k : string) (v : Value) (d : Doc) :
  Dict.lookup k d <> None -> Dict.keys (Dict.setitem k v d) = Dict.keys d.
Proof.
  unfold Dict.keys.
  induction d as [| [k' v'] d IH]; cbn; [congruence |].
  destruct (String.eqb_spec k k') as [-> | Hne]; [reflexivity |].
  intros H. cbn. now rewrite IH.
Qed.

Lemma wf_remove (k : string) (d : Doc) : Dict.wf d -> Dict.wf (Dict.remove k d).
Proof.
  unfold Dict.wf. rewrite keys_remove. apply NoDup_filter.
Qed.

Lemma wf_setitem (k : string) (v : Value) (d : Doc) :
  Dict.wf d -> Dict.wf (Dict.setitem k v d).
Proof.
  unfold Dict.wf. intros Hwf.
  destruct (Dict.lookup k d) as [v' |] eqn:Hl.
  - rewrite keys_setitem_old by congruence. exact Hwf.
  - rewrite keys_setitem_new by exact Hl.
    apply NoDup_app; [exact Hwf | repeat constructor; intros [] |].
    intros x Hx [<- | []]. now apply lookup_none_keys in Hl.
Qed.

(* ================================================================== *)
(** ** [serialize] *)

Lemma serialize_some (str : Value -> string) (d : Doc) :
  serialize str (Some d)
  = match Dict.lookup "_id" d with
    | Some oid =>
        Some (Dict.setitem "id" (VStr (str oid)) (Dict.remove "_id" d))
    | None => Some d
    end.
Proof. destruct d; reflexivity. Qed.

Lemma serialize_result (str : Value -> string) (d : Doc) :
  exists d',
    serialize str (Some d) = Some d'
    /\ Dict.lookup "_id" d' = None
    /\ (forall oid, Dict.lookup "_id" d = Some oid ->
                    Dict.lookup "id" d' = Some (VStr (str oid)))
    /\ (forall k, k <> "_id" -> k <> "id" -> Dict.lookup k d' = Dict.lookup k d)
    /\ (Dict.lookup "_id" d = None -> d' = d).
Proof.
  rewrite serialize_some.
  destruct (Dict.lookup "_id" d) as [oid |] eqn:Hid.
  - eexists. split; [reflexivity |]. split; [| split; [| split]].
    + rewrite lookup_setitem_other by discriminate. apply lookup_remove_same.
    + intros oid' [= <-]. apply lookup_setitem_same.
    + intros k H1 H2.
      rewrite lookup_setitem_other by exact H2.
      now apply lookup_remove_other.
    + discriminate.
  - exists d. repeat split; trivial. discriminate.
Qed.

(** What a client receives never has the key [_id]; every key other
    than [_id] and [id] keeps its value, and a document without [_id]
    comes back as it is. *)
Theorem serialize_hides_mongo_id (str : Value -> string) (d : Doc) :
  exists d',
    serialize str (Some d) = Some d'
    /\ Dict.lookup "_id" d' = None
    /\ (forall k, k <> "_id" -> k <> "id" -> Dict.lookup k d' = Dict.lookup k d)
    /\ (Dict.lookup "_id" d = None -> d' = d).
Proof.
  destruct (serialize_result str d) as (d' & Hs & Hnone & _ & Hframe & Hsame).
  exists d'. auto.
Qed.

(** The [id] of the result is the [str] of the stored [_id], also when
    the document had an [id] field of its own, whose value is lost. *)
Theorem serialize_id_overwrites (str : Value -> string) (d : Doc) (oid : Value) :
  Dict.lookup "_id" d = Some oid ->
  exists d',
    serialize str (Some d) = Some d'
    /\ Dict.lookup "id" d' = Some (VStr (str oid)).
Proof.
  intros Hid. rewrite serialize_some, Hid.
  eexists. split; [reflexivity | apply lookup_setitem_same].
Qed.

Lemma serialize_id_overwrites_witness :
  Dict.lookup "id" legacy_vehicle = Some (VStr "legacy-7")
  /\ exists d',
       serialize sample_str (Some legacy_vehicle) = Some d'
       /\ Dict.lookup "id" d' = Some (VStr "650000000000000000000009").
Proof.
  split; [reflexivity |].
  exact (serialize_id_overwrites sample_str legacy_vehicle
           (VObjectId "650000000000000000000009") eq_refl).
Defined.

(** Serializing twice is serializing once. *)
Theorem serialize_idempotent (str : Value -> string) (doc : option Doc) :
  serialize str (serialize str doc) = serialize str doc.
Proof.
  destruct doc as [d |]; [| reflexivity].
  destruct (serialize_result str d) as (d' & -> & Hnone & _).
  rewrite serialize_some. now rewrite Hnone.
Qed.

(** Keys stay unique, and their order is the stored one: [_id] drops
    out, and [id] keeps its place when the document had one and goes
    last when it had none. *)
Theorem serialize_keys (str : Value -> string) (d d' : Doc) :
  Dict.wf d ->
  serialize str (Some d) = Some d' ->
  Dict.wf d'
  /\ Dict.keys d'
     = if Dict.contains "_id" d then
         filter (fun k => negb (String.eqb "_id" k)) (Dict.keys d)
         ++ (if Dict.contains "id" d then [] else ["id"])
       else Dict.keys d.
Proof.
  intros Hwf. rewrite serialize_some. unfold Dict.contains.
  destruct (Dict.lookup "_id" d) as [oid |] eqn:Hid; intros [= <-].
  - split; [now apply wf_setitem, wf_remove |].
    rewrite <- keys_remove.
    rewrite <- (lookup_remove_other "_id" "id" d) by discriminate.
    destruct (Dict.lookup "id" (Dict.remove "_id" d)) eqn:Hl.
    + rewrite keys_setitem_old by congruence. now rewrite app_nil_r.
    + now rewrite keys_setitem_new.
  - split; [exact Hwf | reflexivity].
Qed.

Lemma serialize_keys_witness :
  Dict.wf legacy_vehicle
  /\ exists d',
       serialize sample_str (Some legacy_vehicle) = Some d'
       /\ Dict.wf d'
       /\ Dict.keys d' = ["user_email"; "id"; "make"].
Proof.
  assert (Hwf : Dict.wf legacy_vehicle).
  { unfold Dict.wf. cbn. repeat constructor; cbn; intuition discriminate. }
  split; [exact Hwf |]. eexists. split; [reflexivity |].
  exact (serialize_keys sample_str legacy_vehicle _ Hwf eq_refl).
Defined.

(* ================================================================== *)
(** ** The health report *)

Lemma env_flag_cases (environ : string -> option string) (var : string) :
  (env_flag environ var = "✅ Set"
   /\ exists v, environ var = Some v /\ v <> "")
  \/ (env_flag environ var = "❌ Not Set"
      /\ (environ var = None \/ environ var = Some "")).
Proof.
  unfold env_flag. destruct (environ var) as [[| c v] |].
  - right. auto.
  - left. split; [reflexivity |]. eexists. split; [reflexivity | discriminate].
  - right. auto.
Qed.

(** The two fields [database_url] and [database_name] of the report say
    only whether the environment variables are set to a non-empty value:
    they are the same for every state of the database, and the name of
    the database is never reported. *)
Theorem report_names_come_from_environment
    (environ : string -> option string) (db db' : option DbProbe) :
  Report.database_url (test_database environ db)
  = Report.database_url (test_database environ db')
  /\ Report.database_name (test_database environ db)
     = Report.database_name (test_database environ db')
  /\ (Report.database_url (test_database environ db) = Some "✅ Set"
      <-> exists v, environ "DATABASE_URL" = Some v /\ v <> "")
  /\ (Report.database_name (test_database environ db) = Some "✅ Set"
      <-> exists v, environ "DATABASE_NAME" = Some v /\ v <> "").
Proof.
  assert (Hflag : forall var,
             Some (env_flag environ var) = Some "✅ Set"
             <-> exists v, environ var = Some v /\ v <> "").
  { intros var.
    destruct (env_flag_cases environ var) as [[-> Hv] | [-> Hv]].
    - tauto.
    - split; [discriminate |]. intros (v & Hs & Hne).
      destruct Hv as [Hv | Hv]; congruence. }
  repeat split; try apply Hflag;
    destruct db as [[n [m | l]] |], db' as [[n' [m' | l']] |]; reflexivity.
Qed.

(** The report names the first 20 collections listed, and none unless
    the listing succeeded; of the message of a listing error it shows
    the first 80 characters, the whole message when it has no more, after
    the fixed words. *)
Theorem report_is_bounded (environ : string -> option string) (db : option DbProbe) :
  let report := test_database environ db in
  (List.length (Report.collections report) <= 20)%nat
  /\ (forall handle names,
        db = Some handle -> probe_collections handle = inr names ->
        Report.database report = "✅ Connected & Working"
        /\ exists rest,
             names = Report.collections report ++ rest
             /\ List.length (Report.collections report)
                = Nat.min 20 (List.length names))
  /\ (forall handle message,
        db = Some handle -> probe_collections handle = inl message ->
        Report.collections report = []
        /\ exists shown rest,
             message = shown ++ rest
             /\ List.length shown = Nat.min 80 (List.length message)
             /\ Report.database report
                = ("⚠️  Connected but Error: " ++ spell shown)%string)
  /\ (db = None ->
      Report.collections report = []
      /\ Report.database report = "⚠️  Available but not initialized"
      /\ Report.connection_status report = "Not Connected").
Proof.
  cbv zeta. split; [| split; [| split]].
  - destruct db as [[n [m | l]] |]; cbn -[firstn spell]; try lia.
    rewrite length_firstn. lia.
  - intros handle names -> Hn. destruct handle as [n c]. cbn in Hn.
    subst c. split; [reflexivity |].
    exists (skipn 20 names). cbn -[firstn skipn].
    split; [symmetry; apply firstn_skipn | apply length_firstn].
  - intros handle message -> Hm. destruct handle as [n c]. cbn in Hm.
    subst c. split; [reflexivity |].
    exists (firstn 80 message), (skipn 80 message).
    split; [symmetry; apply firstn_skipn |].
    split; [apply length_firstn | reflexivity].
  - intros ->. cbn. repeat split.
Qed.

(* ================================================================== *)
(** ** More on [plan_trip] *)


Lemma tanker_trip_feasible : reach_km tanker_trip >= trip_km tanker_trip * 1.05.
Proof.
  rewrite reach_km_spec by (cbn; lra). exact tanker_trip_reach.
Qed.


Lemma firstn_app_long (A : Type) (n : nat) (l more : list A) :
  (n <= List.length l)%nat -> firstn n (l ++ more) = firstn n l.
Proof.
  intros Hn. rewrite firstn_app.
  replace (n - List.length l)%nat with 0%nat by lia.
  cbn. apply app_nil_r.
Qed.

(** Only the first 50 stations of the collection take part: whatever
    the store holds after them, a stronger station included, the
    outcome is the same. *)
Theorem stations_after_the_fiftieth_are_ignored
    (coll more : list StationDoc) (req : TripRequest) :
  (50 <= List.length coll)%nat ->
  plan_trip (Some (coll ++ more)) req = plan_trip (Some coll) req.
Proof.
  intros Hlen. rewrite !plan_trip_cases. cbn [find_stations].
  now rewrite firstn_app_long.
Qed.

Lemma stations_after_the_fiftieth_are_ignored_witness :
  In bay_bridge (repeat silicon_valley 50 ++ [bay_bridge])
  /\ power_key silicon_valley < power_key bay_bridge
  /\ plan_trip crowded_db far_trip
     = plan_trip (Some (repeat silicon_valley 50)) far_trip.
Proof.
  split; [apply in_or_app; right; now left |].
  split; [cbn; lra |].
  apply (stations_after_the_fiftieth_are_ignored
           (repeat silicon_valley 50) [bay_bridge] far_trip).
  rewrite repeat_length. apply Nat.le_refl.
Defined.


(** The angle of a point of the first quadrant, and the distance when
    [a] is the squared sine of half an angle. *)
Lemma atan2_sin_cos (u : R) : 0 <= u <= PI / 2 -> atan2 (sin u) (cos u) = u.
Proof.
  intros [Hlo Hhi]. pose proof PI_RGT_0 as Hpi.
  destruct (Req_dec_T u (PI / 2)) as [-> | Hne].
  - rewrite sin_PI2, cos_PI2. apply atan2_1_0.
  - assert (Hcos : 0 < cos u) by (apply cos_gt_0; lra).
    unfold atan2. destruct (Rlt_dec 0 (cos u)) as [_ | H]; [| contradiction].
    change (sin u / cos u) with (tan u). apply atan_tan. lra.
Qed.

Lemma great_circle_of_half_angle (lat1 lng1 lat2 lng2 u : R) :
  0 <= u <= PI / 2 ->
  hav_a lat1 lng1 lat2 lng2 = sin u ^ 2 ->
  great_circle_km lat1 lng1 lat2 lng2 = 6371 * (2 * u).
Proof.
  intros Hu Ha. pose proof PI_RGT_0 as Hpi.
  unfold great_circle_km. cbv zeta. rewrite Ha.
  assert (Hs : 0 <= sin u) by (apply sin_ge_0; lra).
  assert (Hc : 0 <= cos u) by (apply cos_ge_0; lra).
  replace (1 - sin u ^ 2) with (cos u ^ 2)
    by (pose proof (sin2_cos2 u) as H; unfold Rsqr in H; lra).
  rewrite <- !Rsqr_pow2, !sqrt_Rsqr by assumption.
  now rewrite atan2_sin_cos.
Qed.

(** One degree along the meridian 122 W is 6371 * PI / 180 km. *)
Lemma northbound_trip_km : trip_km northbound_trip = 6371 * (PI / 180).
Proof.
  pose proof PI_between as Hpi.
  unfold trip_km, northbound_trip, trip. cbn.
  rewrite (great_circle_of_half_angle _ _ _ _ (PI / 360)).
  - lra.
  - lra.
  - unfold hav_a.
    replace (radians (-122 - -122) / 2) with 0 by (unfold radians; lra).
    replace (radians (38 - 37) / 2) with (PI / 360) by (unfold radians; lra).
    rewrite sin_0. ring.
Qed.

Lemma northbound_trip_infeasible :
  reach_km northbound_trip < trip_km northbound_trip * 1.05.
Proof.
  rewrite northbound_trip_km.
  unfold northbound_trip. rewrite reach_km_spec by (cbn; lra).
  unfold spec_max_reachable_km, trip. cbn.
  pose proof PI_between. lra.
Qed.


Lemma Int_part_0 : Int_part 0 = 0%Z.
Proof. symmetry. apply Int_part_spec. cbn. lra. Qed.

Lemma int_0 : int 0 = 0%Z.
Proof.
  unfold int. destruct (Rle_dec 0 0) as [_ | H]; [apply Int_part_0 | lra].
Qed.

Lemma round1_0 : round1 0 = 0.
Proof.
  unfold round1, round_half_even. replace (0 * 10) with 0 by lra.
  rewrite Int_part_0. cbn.
  destruct (Rlt_dec (0 - 0) (1 / 2)) as [_ | H]; [lra | lra].
Qed.



Lemma int_floor (x : R) : 0 <= x -> IZR (int x) <= x < IZR (int x) + 1.
Proof.
  intros Hx. unfold int. destruct (Rle_dec 0 x) as [_ | H]; [| lra].
  pose proof (base_Int_part x). lra.
Qed.

Lemma int_nonneg (x : R) : 0 <= x -> (0 <= int x)%Z.
Proof.
  intros Hx. pose proof (int_floor x Hx) as [_ Hup].
  apply Z.lt_succ_r. apply lt_IZR. rewrite succ_IZR. lra.
Qed.

Lemma round_half_even_near (y : R) :
  Rabs (IZR (round_half_even y) - y) <= 1 / 2.
Proof.
  unfold round_half_even. pose proof (base_Int_part y) as [Hlo Hhi].
  set (n := Int_part y) in *. cbv zeta.
  destruct (Rlt_dec (y - IZR n) (1 / 2)) as [Hlt | Hge].
  - apply Rabs_le. lra.
  - destruct (Rlt_dec (1 / 2) (y - IZR n)) as [Hgt | Hle].
    + rewrite plus_IZR. apply Rabs_le. lra.
    + destruct (Z.even n); [| rewrite plus_IZR]; apply Rabs_le; lra.
Qed.

Lemma round1_near (x : R) : Rabs (round1 x - x) <= 5 / 100.
Proof.
  unfold round1. pose proof (round_half_even_near (x * 10)) as H.
  revert H. unfold Rabs.
  destruct (Rcase_abs (IZR (round_half_even (x * 10)) - x * 10));
    destruct (Rcase_abs (IZR (round_half_even (x * 10)) / 10 - x)); lra.
Qed.

Lemma total_charge_minutes_stop (req : TripRequest) (station : StationDoc) :
  total_charge_minutes (stop_plan req station) = charge_minutes_of station.
Proof. unfold total_charge_minutes. cbn. lia. Qed.

Lemma charge_minutes_of_cases (station : StationDoc) :
  charge_minutes_of station = 25%Z \/ charge_minutes_of station = 35%Z.
Proof.
  unfold charge_minutes_of.
  destruct (Rge_dec (get (doc_power_kw station) 50) 150); auto.
Qed.

(** The numbers of a returned plan: the distance is a whole number of
    tenths within 0.05 km of the computed distance; the duration is the
    whole minutes of the drive at 90 km/h plus the charge minutes of the
    stops, never negative and less than one minute short. *)
Theorem plan_numbers_are_rounded (db : Database) (req : TripRequest) (plan : RoutePlan.t) :
  plan_trip db req = Return plan ->
  let minutes := trip_km req / 90 * 60 + IZR (total_charge_minutes plan) in
  (exists tenths : Z, RoutePlan.total_distance_km plan = IZR tenths / 10)
  /\ Rabs (RoutePlan.total_distance_km plan - trip_km req) <= 5 / 100
  /\ (0 <= RoutePlan.estimated_duration_minutes plan)%Z
  /\ IZR (RoutePlan.estimated_duration_minutes plan) <= minutes
     < IZR (RoutePlan.estimated_duration_minutes plan) + 1.
Proof.
  pose proof (trip_km_nonneg req) as Hd.
  rewrite plan_trip_cases.
  destruct (Rge_dec (reach_km req) (trip_km req * 1.05)).
  - intros [= <-]. cbv zeta.
    change (total_charge_minutes (direct_plan req)) with 0%Z.
    cbn [direct_plan make_plan RoutePlan.total_distance_km
         RoutePlan.estimated_duration_minutes].
    assert (Hm : 0 <= trip_km req / 90 * 60) by lra.
    split; [eexists; reflexivity |]. split; [apply round1_near |].
    split; [now apply int_nonneg |].
    pose proof (int_floor _ Hm). lra.
  - destruct (first_max power_key (find_stations db)) as [st |]; [| discriminate].
    intros [= <-]. cbv zeta. rewrite total_charge_minutes_stop.
    cbn [stop_plan make_plan RoutePlan.total_distance_km
         RoutePlan.estimated_duration_minutes].
    assert (Hc : 0 <= IZR (charge_minutes_of st)).
    { destruct (charge_minutes_of_cases st) as [-> | ->]; lra. }
    assert (Hm : 0 <= trip_km req / 90 * 60 + IZR (charge_minutes_of st)) by lra.
    split; [eexists; reflexivity |]. split; [apply round1_near |].
    split; [now apply int_nonneg |].
    pose proof (int_floor _ Hm). lra.
Qed.

Lemma plan_numbers_are_rounded_witness :
  let plan := stop_plan far_trip bay_bridge in
  let minutes := trip_km far_trip / 90 * 60 + IZR (total_charge_minutes plan) in
  (exists tenths : Z, RoutePlan.total_distance_km plan = IZR tenths / 10)
  /\ Rabs (RoutePlan.total_distance_km plan - trip_km far_trip) <= 5 / 100
  /\ (0 <= RoutePlan.estimated_duration_minutes plan)%Z
  /\ IZR (RoutePlan.estimated_duration_minutes plan) <= minutes
     < IZR (RoutePlan.estimated_duration_minutes plan) + 1.
Proof.
  apply (plan_numbers_are_rounded seed_db far_trip).
  apply plan_trip_stop; [| exact seed_first_max].
  apply not_feasible_iff, far_trip_infeasible.
Defined.





Lemma trip_km_return (req : TripRequest) : trip_km (return_trip req) = trip_km req.
Proof.
  unfold trip_km, return_trip, great_circle_km. cbn.
  now rewrite hav_a_sym.
Qed.

(** The way back is planned like the way out: the same failure, or a
    plan with the same distance, the same duration and a stop at the
    same station for the same time (only the coordinates that stand in for
    a station's missing ones follow the new origin). *)
Theorem return_trip_is_planned_alike (db : Database) (req : TripRequest) :
  match plan_trip db req, plan_trip db (return_trip req) with
  | Return plan, Return back =>
      RoutePlan.total_distance_km back = RoutePlan.total_distance_km plan
      /\ RoutePlan.estimated_duration_minutes back
         = RoutePlan.estimated_duration_minutes plan
      /\ map stop_station (RoutePlan.stops back)
         = map stop_station (RoutePlan.stops plan)
  | Raise e, Raise e' => e = e'
  | _, _ => False
  end.
Proof.
  rewrite !plan_trip_cases, trip_km_return.
  change (reach_km (return_trip req))
    with (let usable_kwh :=
            vehicle_battery_kwh req * (current_soc_percent req / 100) in
          let kwh_per_km := vehicle_efficiency_kwh_per_100km req / 100 in
          if truthy kwh_per_km then usable_kwh / kwh_per_km
          else trip_km (return_trip req)).
  cbv zeta. rewrite trip_km_return. fold (reach_km req).
  destruct (Rge_dec (reach_km req) (trip_km req * 1.05)).
  - unfold direct_plan. cbn. now rewrite trip_km_return.
  - destruct (first_max power_key (find_stations db)); [| reflexivity].
    unfold stop_plan. cbn. now rewrite trip_km_return.
Qed.

(* ================================================================== *)
(** ** Bookings *)

Lemma find_one_none (coll : list Doc) (oid : string) :
  (forall d, In d coll -> has_id oid d = false) -> find_one coll oid = None.
Proof.
  intros H. unfold find_one. induction coll as [| d coll IH]; cbn.
  - reflexivity.
  - rewrite (H d) by now left. apply IH. intros d' Hd'. apply H. now right.
Qed.

Lemma find_one_split (before after : list Doc) (station : Doc) (oid : string) :
  (forall d, In d before -> has_id oid d = false) ->
  has_id oid station = true ->
  find_one (before ++ station :: after) oid = Some station.
Proof.
  intros Hb Hs. unfold find_one. induction before as [| d before IH]; cbn.
  - now rewrite Hs.
  - rewrite (Hb d) by now left. apply IH. intros d' Hd'. apply Hb. now right.
Qed.

Lemma update_one_inc_split (before after : list Doc) (station : Doc)
    (oid k : string) (amount : Z) :
  (forall d, In d before -> has_id oid d = false) ->
  has_id oid station = true ->
  update_one_inc oid k amount (before ++ station :: after)
  = match inc_field k amount station with
    | Ok station' => Ok (before ++ station' :: after)
    | Err e => Err e
    end.
Proof.
  intros Hb Hs. induction before as [| d before IH]; cbn.
  - now rewrite Hs.
  - rewrite (Hb d) by now left.
    rewrite IH by (intros d' Hd'; apply Hb; now right).
    now destruct (inc_field k amount station).
Qed.

(** A booking that cannot be placed fails before anything is written:
    with no database the subscript raises a [TypeError], a malformed
    station id raises [InvalidId], and an id no station has gives the 404
    "Station not found"; in each case the store is left as it was and
    [create_document] has no part in the outcome. *)
Theorem booking_fails_before_writing
    (ObjectId : string -> option string)
    (create_document : string -> Doc -> Store -> Res string * Store)
    (b : BookingRequest.t) :
  create_booking ObjectId create_document None b
  = (Err (TypeError "'NoneType' object is not subscriptable"), None)
  /\ (forall store,
        ObjectId (BookingRequest.station_id b) = None ->
        create_booking ObjectId create_document (Some store) b
        = (Err (InvalidId (BookingRequest.station_id b)), Some store))
  /\ (forall store oid,
        ObjectId (BookingRequest.station_id b) = Some oid ->
        (forall d, In d (store "chargingstation") -> has_id oid d = false) ->
        create_booking ObjectId create_document (Some store) b
        = (Err (HTTPError 404 "Station not found"), Some store)).
Proof.
  split; [reflexivity |]. split.
  - intros store Hid. unfold create_booking. now rewrite Hid.
  - intros store oid Hid Hnone. unfold create_booking.
    now rewrite Hid, find_one_none.
Qed.

Lemma inc_ports (station : Doc) (n : Z) :
  Dict.lookup "available_ports" station = Some (VInt n) ->
  inc_field "available_ports" (-1) station
  = Ok (Dict.setitem "available_ports" (VInt (n - 1)) station).
Proof.
  intros H. unfold inc_field. rewrite H. reflexivity.
Qed.

(** A booking takes a port without asking whether one is free.  When the
    station exists and its [available_ports] is an integer [n], of any
    sign, and [create_document] stores the booking without touching the
    stations, the request succeeds with the new booking's id and the
    station's count becomes [n - 1]; no other field of the station and
    no other station changes. *)
Theorem booking_takes_a_port_unchecked
    (ObjectId : string -> option string)
    (create_document : string -> Doc -> Store -> Res string * Store)
    (store store' : Store) (b : BookingRequest.t) (oid booking_id : string)
    (before after : list Doc) (station : Doc) (n : Z) :
  ObjectId (BookingRequest.station_id b) = Some oid ->
  store "chargingstation" = before ++ station :: after ->
  (forall d, In d before -> has_id oid d = false) ->
  has_id oid station = true ->
  Dict.lookup "available_ports" station = Some (VInt n) ->
  create_document "booking" (booking_data b) store = (Ok booking_id, store') ->
  store' "chargingstation" = store "chargingstation" ->
  exists station',
    create_booking ObjectId create_document (Some store) b
    = (Ok [("id", VStr booking_id)],
       Some (put "chargingstation" (before ++ station' :: after) store'))
    /\ Dict.lookup "available_ports" station' = Some (VInt (n - 1))
    /\ (forall k, k <> "available_ports" ->
                  Dict.lookup k station' = Dict.lookup k station)
    /\ Dict.keys station' = Dict.keys station.
Proof.
  intros Hid Hcoll Hbefore Hstation Hports Hcreate Hframe.
  exists (Dict.setitem "available_ports" (VInt (n - 1)) station).
  split; [| split; [| split]].
  - unfold create_booking. rewrite Hid, Hcoll.
    rewrite (find_one_split before after station oid Hbefore Hstation).
    rewrite Hcreate, Hframe, Hcoll.
    rewrite (update_one_inc_split before after station oid _ _ Hbefore Hstation).
    now rewrite (inc_ports station n Hports).
  - apply lookup_setitem_same.
  - intros k Hk. now apply lookup_setitem_other.
  - apply keys_setitem_old. congruence.
Qed.

Lemma booking_takes_a_port_unchecked_witness :
  Dict.lookup "available_ports" full_station = Some (VInt 0)
  /\ exists station',
       create_booking sample_object_id sample_create (Some busy_store)
         sample_booking
       = (Ok [("id", VStr "65000000000000000000ffff")],
          Some (put "chargingstation" ([] ++ station' :: [])
                  (snd (sample_create "booking" (booking_data sample_booking)
                          busy_store))))
       /\ Dict.lookup "available_ports" station' = Some (VInt (0 - 1))
       /\ (forall k, k <> "available_ports" ->
                     Dict.lookup k station' = Dict.lookup k full_station)
       /\ Dict.keys station' = Dict.keys full_station.
Proof.
  split; [reflexivity |].
  apply (booking_takes_a_port_unchecked sample_object_id sample_create
           busy_store _ sample_booking "650000000000000000000003"
           "65000000000000000000ffff" [] [] full_station 0);
    try reflexivity.
  intros d [].
Defined.

Lemma update_one_inc_not_a_number (coll : list Doc) (oid : string)
    (station : Doc) (v : Value) :
  find_one coll oid = Some station ->
  Dict.lookup "available_ports" station = Some v ->
  number (Some v) = None ->
  update_one_inc oid "available_ports" (-1) coll
  = Err (WriteError "Cannot apply $inc to a value of non-numeric type").
Proof.
  intros Hfind Hv Hnum. unfold find_one in Hfind.
  induction coll as [| d coll IH]; [discriminate |].
  cbn in Hfind |- *. destruct (has_id oid d).
  - injection Hfind as ->. unfold inc_field. rewrite Hv.
    destruct v; try reflexivity; discriminate Hnum.
  - now rewrite IH.
Qed.

(** A booking is not undone when the second write fails.  When the
    station's [available_ports] holds something that is no number (a
    null, a string), the booking is created first, then [$inc] raises the
    write error: the request fails, and the store is the one
    [create_document] left, the new booking included.  A failure of
    [create_document] itself is passed on with no port taken. *)
Theorem booking_is_not_rolled_back
    (ObjectId : string -> option string)
    (create_document : string -> Doc -> Store -> Res string * Store)
    (store store' : Store) (b : BookingRequest.t) (oid : string)
    (station : Doc) (r : Res string) :
  ObjectId (BookingRequest.station_id b) = Some oid ->
  find_one (store "chargingstation") oid = Some station ->
  create_document "booking" (booking_data b) store = (r, store') ->
  store' "chargingstation" = store "chargingstation" ->
  match r with
  | Err e =>
      create_booking ObjectId create_document (Some store) b
      = (Err e, Some store')
  | Ok _ =>
      forall v,
        Dict.lookup "available_ports" station = Some v ->
        number (Some v) = None ->
        create_booking ObjectId create_document (Some store) b
        = (Err (WriteError "Cannot apply $inc to a value of non-numeric type"),
           Some store')
  end.
Proof.
  intros Hid Hfind Hcreate Hframe.
  unfold create_booking. rewrite Hid, Hfind, Hcreate.
  destruct r as [booking_id | e]; [| reflexivity].
  intros v Hv Hnum. rewrite Hframe.
  now rewrite (update_one_inc_not_a_number _ oid station v Hfind Hv Hnum).
Qed.

Lemma booking_is_not_rolled_back_witness :
  create_booking sample_object_id sample_create (Some unmetered_store)
    sample_booking
  = (Err (WriteError "Cannot apply $inc to a value of non-numeric type"),
     Some (snd (sample_create "booking" (booking_data sample_booking)
                  unmetered_store)))
  /\ snd (sample_create "booking" (booking_data sample_booking)
            unmetered_store) "booking"
     = [Dict.setitem "_id" (VObjectId "65000000000000000000ffff")
          (booking_data sample_booking)].
Proof.
  split; [| reflexivity].
  exact (booking_is_not_rolled_back sample_object_id sample_create
           unmetered_store _ sample_booking "650000000000000000000003"
           unmetered_station (Ok "65000000000000000000ffff")
           eq_refl eq_refl eq_refl eq_refl VNone eq_refl eq_refl).
Defined.

Lemma station_doc_inc_ports (str : Value -> string) (d d' : Doc) (amount : Z) :
  inc_field "available_ports" amount d = Ok d' ->
  station_doc str d' = station_doc str d.
Proof.
  unfold inc_field.
  destruct (Dict.lookup "available_ports" d) as [[] |]; intros [= <-];
    unfold station_doc; now rewrite !lookup_setitem_other by discriminate.
Qed.

Lemma planner_view_update_one (str : Value -> string) (oid : string)
    (amount : Z) (coll coll' : list Doc) :
  update_one_inc oid "available_ports" amount coll = Ok coll' ->
  map (station_doc str) coll' = map (station_doc str) coll.
Proof.
  revert coll'. induction coll as [| d coll IH]; intros coll'; cbn.
  - now intros [= <-].
  - destruct (has_id oid d).
    + destruct (inc_field "available_ports" amount d) as [d' |] eqn:Hinc;
        intros [= <-]. cbn. now rewrite (station_doc_inc_ports str d d' amount).
    + destruct (update_one_inc oid "available_ports" amount coll) as [rest |];
        intros [= <-]. cbn. now rewrite IH.
Qed.

Lemma typed_station_inc_ports (d d' : Doc) (amount : Z) :
  inc_field "available_ports" amount d = Ok d' ->
  typed_station d -> typed_station d'.
Proof.
  unfold inc_field.
  destruct (Dict.lookup "available_ports" d) as [[] |]; intros [= <-];
    unfold typed_station; now rewrite !lookup_setitem_other by discriminate.
Qed.

Lemma typed_stations_update_one (oid : string) (amount : Z)
    (coll coll' : list Doc) :
  update_one_inc oid "available_ports" amount coll = Ok coll' ->
  Forall typed_station coll -> Forall typed_station coll'.
Proof.
  revert coll'. induction coll as [| d coll IH]; intros coll'; cbn.
  - now intros [= <-].
  - intros Hupd Hall. inversion Hall as [| d0 coll0 Hd Hrest]; subst.
    destruct (has_id oid d).
    + destruct (inc_field "available_ports" amount d) as [d' |] eqn:Hinc;
        [| discriminate].
      injection Hupd as <-. constructor; [| exact Hrest].
      exact (typed_station_inc_ports d d' amount Hinc Hd).
    + destruct (update_one_inc oid "available_ports" amount coll) as [rest |];
        [| discriminate].
      injection Hupd as <-. constructor; [exact Hd | now apply IH].
Qed.

(** Bookings never change a route plan.  The planner reads a station's
    id, name, coordinates and power, and a booking changes
    [available_ports] only: on a store whose station documents hold
    numbers and strings where the planner expects them, they still do
    after [create_booking], whatever it answers, and [plan_trip] answers
    every request afterwards as it did before, so it goes on sending
    drivers to a station that has no port left.  ([create_document] is
    taken to leave the stations alone when it stores the booking.) *)
Theorem bookings_never_change_plans
    (ObjectId : string -> option string)
    (create_document : string -> Doc -> Store -> Res string * Store)
    (str : Value -> string)
    (store : Store) (b : BookingRequest.t)
    (answer : Res Doc) (db' : option Store) (req : TripRequest) :
  Forall typed_station (store "chargingstation") ->
  snd (create_document "booking" (booking_data b) store) "chargingstation"
  = store "chargingstation" ->
  create_booking ObjectId create_document (Some store) b = (answer, db') ->
  (exists store',
     db' = Some store' /\ Forall typed_station (store' "chargingstation"))
  /\ planner_db str db' = planner_db str (Some store)
  /\ plan_trip (planner_db str db') req
     = plan_trip (planner_db str (Some store)) req.
Proof.
  intros Htyped Hframe Hbook.
  assert (Hview : (exists store',
                     db' = Some store'
                     /\ Forall typed_station (store' "chargingstation"))
                  /\ planner_db str db' = planner_db str (Some store)).
  { revert Hbook. unfold create_booking.
    destruct (ObjectId (BookingRequest.station_id b)) as [oid |];
      [| intros [= <- <-]; split; [now exists store | reflexivity]].
    destruct (find_one (store "chargingstation") oid) as [station |];
      [| intros [= <- <-]; split; [now exists store | reflexivity]].
    destruct (create_document "booking" (booking_data b) store)
      as [[booking_id | e] store'] eqn:Hcreate; cbn in Hframe.
    - destruct (update_one_inc oid "available_ports" (-1)
                  (store' "chargingstation")) as [coll |] eqn:Hupd;
        intros [= <- <-]; cbn.
      + split.
        * eexists. split; [reflexivity |]. unfold put. cbn.
          apply (typed_stations_update_one oid (-1) _ _ Hupd).
          now rewrite Hframe.
        * unfold put. cbn. f_equal. rewrite <- Hframe.
          now apply planner_view_update_one with (oid := oid) (amount := (-1)%Z).
      + split; [exists store'; now rewrite Hframe | now rewrite Hframe].
    - intros [= <- <-]. cbn.
      split; [exists store'; now rewrite Hframe | now rewrite Hframe]. }
  destruct Hview as [Hty Hview].
  split; [exact Hty |]. split; [exact Hview | now rewrite Hview].
Qed.

Lemma bookings_never_change_plans_witness :
  Dict.lookup "available_ports" full_station = Some (VInt 0)
  /\ (exists store',
        snd (create_booking sample_object_id sample_create (Some busy_store)
               sample_booking) = Some store'
        /\ Forall typed_station (store' "chargingstation"))
  /\ planner_db sample_str
       (snd (create_booking sample_object_id sample_create (Some busy_store)
               sample_booking))
     = planner_db sample_str (Some busy_store)
  /\ plan_trip
       (planner_db sample_str
          (snd (create_booking sample_object_id sample_create
                  (Some busy_store) sample_booking))) far_trip
     = plan_trip (planner_db sample_str (Some busy_store)) far_trip.
Proof.
  split; [reflexivity |].
  apply (bookings_never_change_plans sample_object_id sample_create sample_str
           busy_store sample_booking
           (fst (create_booking sample_object_id sample_create
                   (Some busy_store) sample_booking)));
    [| reflexivity | reflexivity].
  repeat constructor.
Defined.

(* ================================================================== *)
(** ** Seeding *)

Section SeedFacts.

Variable create_document : string -> Doc -> Store -> Res string * Store.

(** What seeding needs of [create_document]: after a successful call
    the collection it wrote to is not empty, and no collection that held
    documents has lost them all. *)
Hypothesis create_document_keeps :
  forall c data store i store',
    create_document c data store = (Ok i, store') ->
    store' c <> [] /\ (forall c', store c' <> [] -> store' c' <> []).

Lemma create_all_keeps (c : string) (docs : list Doc) (store store' : Store) :
  create_all create_document c docs store = (Ok tt, store') ->
  (docs <> [] -> store' c <> [])
  /\ (forall c', store c' <> [] -> store' c' <> []).
Proof.
  revert store. induction docs as [| doc docs IH]; intros store; cbn.
  - intros [= <-]. split; [congruence | trivial].
  - destruct (create_document c doc store) as [[i | e] mid] eqn:Hc;
      [| discriminate].
    intros Hrest. destruct (create_document_keeps _ _ _ _ _ Hc) as [Hc1 Hc2].
    destruct (IH mid Hrest) as [_ Hk]. split.
    + intros _. now apply Hk.
    + intros c' Hc'. now apply Hk, Hc2.
Qed.

Lemma seed_data_skips_filled (store : Store) :
  store "plan" <> [] -> store "chargingstation" <> [] ->
  seed_data create_document (Some store) = (Ok tt, Some store).
Proof.
  intros Hp Hs. unfold seed_data.
  destruct (store "plan"); [congruence |].
  destruct (store "chargingstation"); [congruence | reflexivity].
Qed.

Lemma seed_data_fills (store store' : Store) :
  seed_data create_document (Some store) = (Ok tt, Some store') ->
  store' "plan" <> [] /\ store' "chargingstation" <> [].
Proof.
  unfold seed_data.
  destruct (store "plan") as [| p ps] eqn:Hp.
  - destruct (create_all create_document "plan" seed_plans store)
      as [[[] | e] mid] eqn:Hplans; [| discriminate].
    destruct (create_all_keeps _ _ _ _ Hplans) as [Hfilled _].
    specialize (Hfilled ltac:(discriminate)).
    destruct (mid "chargingstation") as [| s ss] eqn:Hs.
    + destruct (create_all create_document "chargingstation" seed_stations mid)
        as [[[] | e] fin] eqn:Hst; intros [= <-].
      destruct (create_all_keeps _ _ _ _ Hst) as [Hf Hk].
      split; [now apply Hk | apply Hf; discriminate].
    + intros [= <-]. split; [exact Hfilled | congruence].
  - destruct (store "chargingstation") as [| s ss] eqn:Hs.
    + destruct (create_all create_document "chargingstation" seed_stations store)
        as [[[] | e] fin] eqn:Hst; intros [= <-].
      destruct (create_all_keeps _ _ _ _ Hst) as [Hf Hk].
      split; [apply Hk; congruence | apply Hf; discriminate].
    + intros [= <-]. split; congruence.
Qed.

End SeedFacts.

(** Seeding is idempotent.  With no database it does nothing; a
    collection that already holds a document is not written to; and
    after a run that succeeded both collections hold documents, so that a
    second run leaves the store exactly as the first one left it.
    ([create_document] is taken to leave its collection non-empty and to
    empty no other.) *)
Theorem seed_data_is_idempotent
    (create_document : string -> Doc -> Store -> Res string * Store)
    (db db' : option Store) :
  (forall c data store i store',
     create_document c data store = (Ok i, store') ->
     store' c <> [] /\ (forall c', store c' <> [] -> store' c' <> [])) ->
  seed_data create_document db = (Ok tt, db') ->
  seed_data create_document db' = (Ok tt, db')
  /\ (db = None -> db' = None)
  /\ (forall store,
        db = Some store ->
        store "plan" <> [] -> store "chargingstation" <> [] -> db' = db).
Proof.
  intros Hkeeps Hseed. destruct db as [store |].
  - assert (Hsome : exists store', db' = Some store').
    { revert Hseed. unfold seed_data.
      destruct (match store "plan" with
                | [] => create_all create_document "plan" seed_plans store
                | _ :: _ => (Ok tt, store)
                end) as [[[] | e] mid]; [| discriminate].
      destruct (match mid "chargingstation" with
                | [] => create_all create_document "chargingstation"
                          seed_stations mid
                | _ :: _ => (Ok tt, mid)
                end) as [r fin].
      intros [= _ <-]. eauto. }
    destruct Hsome as [store' ->].
    destruct (seed_data_fills create_document Hkeeps store store' Hseed)
      as [Hp Hs].
    split; [now apply seed_data_skips_filled |].
    split; [discriminate |].
    intros store0 [= <-] Hp0 Hs0.
    rewrite (seed_data_skips_filled create_document store Hp0 Hs0) in Hseed.
    now injection Hseed as <-.
  - cbn in Hseed. injection Hseed as <-.
    split; [reflexivity |]. split; [trivial | discriminate].
Qed.

Lemma sample_create_keeps :
  forall c data store i store',
    sample_create c data store = (Ok i, store') ->
    store' c <> [] /\ (forall c', store c' <> [] -> store' c' <> []).
Proof.
  intros c data store i store'. unfold sample_create. intros [= _ <-].
  unfold put. split.
  - rewrite String.eqb_refl. now destruct (store c).
  - intros c' Hc'. destruct (String.eqb_spec c' c) as [-> | _]; [| exact Hc'].
    now destruct (store c).
Qed.

Lemma seed_data_is_idempotent_witness :
  let seeded := snd (seed_data sample_create (Some empty_store)) in
  seed_data sample_create seeded = (Ok tt, seeded)
  /\ (Some empty_store = None -> seeded = None)
  /\ (forall store,
        Some empty_store = Some store ->
        store "plan" <> [] -> store "chargingstation" <> [] ->
        seeded = Some empty_store).
Proof.
  exact (seed_data_is_idempotent sample_create (Some empty_store) _
           sample_create_keeps eq_refl).
Defined.

(* ================================================================== *)
(** ** The listing endpoints *)

(** What a listing endpoint returns: a failure of [get_documents] as it
    is, and otherwise one item per document found, in the same order,
    none with the key [_id], each with the [str] of the stored [_id] under
    [id] and with every other field as stored. *)
Theorem listing_serializes_every_document
    (get_documents : string -> Doc -> option Z -> Res (list Doc))
    (str : Value -> string) (c : string) (q : Doc) (limit : option Z) :
  match get_documents c q limit with
  | Err e => listing get_documents str c q limit = Err e
  | Ok docs =>
      exists items,
        listing get_documents str c q limit = Ok items
        /\ Forall2
             (fun d item =>
                exists d',
                  item = Some d'
                  /\ Dict.lookup "_id" d' = None
                  /\ (forall oid, Dict.lookup "_id" d = Some oid ->
                                  Dict.lookup "id" d' = Some (VStr (str oid)))
                  /\ (forall k, k <> "_id" -> k <> "id" ->
                                Dict.lookup k d' = Dict.lookup k d))
             docs items
  end.
Proof.
  unfold listing. destruct (get_documents c q limit) as [docs | e];
    [| reflexivity].
  eexists. split; [reflexivity |].
  induction docs as [| d docs IH]; cbn [map]; constructor; [| exact IH].
  destruct (serialize_result str d) as (d' & Hs & Hnone & Hid & Hframe & _).
  exists d'. auto.
Qed.

(* ================================================================== *)
(** ** The estimator along a meridian and along the equator *)

Lemma sin_sq_abs (x : R) : sin (x / 2) ^ 2 = sin (Rabs x / 2) ^ 2.
Proof.
  unfold Rabs. destruct (Rcase_abs x); [| reflexivity].
  replace (- x / 2) with (- (x / 2)) by lra. rewrite sin_neg. ring.
Qed.

(** In exact arithmetic the estimator measures arcs as it should: between
    two points of one meridian, at most 180 degrees of latitude apart,
    and between two points of the equator, at most 180 degrees of
    longitude apart, the distance is 6371 km times the angle between
    them in radians (some 111.19 km per degree). *)
Theorem haversine_measures_arcs (lat1 lat2 lng1 lng2 : R) :
  (Rabs (lat2 - lat1) <= 180 ->
   haversine_km lat1 lng1 lat2 lng1
   = Return (6371 * radians (Rabs (lat2 - lat1))))
  /\ (Rabs (lng2 - lng1) <= 180 ->
      haversine_km 0 lng1 0 lng2
      = Return (6371 * radians (Rabs (lng2 - lng1)))).
Proof.
  pose proof PI_RGT_0 as Hpi. split; intros Hle; rewrite haversine_returns;
    f_equal.
  - pose proof (Rabs_pos (lat2 - lat1)) as Hpos.
    rewrite (great_circle_of_half_angle _ _ _ _
               (radians (Rabs (lat2 - lat1)) / 2)).
    + lra.
    + unfold radians. split; nra.
    + unfold hav_a.
      replace (radians (lng1 - lng1) / 2) with 0 by (unfold radians; lra).
      rewrite sin_0, sin_sq_abs.
      replace (Rabs (radians (lat2 - lat1))) with (radians (Rabs (lat2 - lat1))).
      * ring.
      * unfold radians. rewrite Rabs_mult. f_equal.
        symmetry. apply Rabs_pos_eq. lra.
  - pose proof (Rabs_pos (lng2 - lng1)) as Hpos.
    rewrite (great_circle_of_half_angle _ _ _ _
               (radians (Rabs (lng2 - lng1)) / 2)).
    + lra.
    + unfold radians. split; nra.
    + unfold hav_a.
      replace (radians (0 - 0) / 2) with 0 by (unfold radians; lra).
      replace (radians 0) with 0 by (unfold radians; lra).
      rewrite sin_0, cos_0, sin_sq_abs.
      replace (Rabs (radians (lng2 - lng1))) with (radians (Rabs (lng2 - lng1))).
      * ring.
      * unfold radians. rewrite Rabs_mult. f_equal.
        symmetry. apply Rabs_pos_eq. lra.
Qed.

Lemma haversine_measures_arcs_witness :
  haversine_km 37 (-122) 38 (-122) = Return (6371 * radians (Rabs (38 - 37))).
Proof.
  apply (proj1 (haversine_measures_arcs 37 38 (-122) (-122))).
  unfold Rabs. destruct (Rcase_abs (38 - 37)); lra.
Defined.

(* ================================================================== *)
(** ** From the seed to the plan *)

Section SeedToPlan.

Variable create_document : string -> Doc -> Store -> Res string * Store.

Hypothesis create_document_inserts : inserts create_document.

Lemma create_all_inserts (c : string) (docs : list Doc) (store store' : Store) :
  create_all create_document c docs store = (Ok tt, store') ->
  (exists docs', store' c = store c ++ docs' /\ Forall2 stored_as docs docs')
  /\ (forall c', c' <> c -> store' c' = store c').
Proof.
  revert store. induction docs as [| data docs IH]; intros store; cbn.
  - intros [= <-]. split; [| trivial].
    exists []. split; [now rewrite app_nil_r | constructor].
  - destruct (create_document c data store) as [[i | e] mid] eqn:Hc;
      [| discriminate].
    intros Hrest.
    destruct (create_document_inserts _ _ _ _ _ Hc) as [(doc & Hdoc & Hst) Hfr].
    destruct (IH mid Hrest) as [(docs' & Hdocs & Hall) Hfr'].
    split.
    + exists (doc :: docs'). split; [| now constructor].
      rewrite Hdocs, Hdoc, <- app_assoc. reflexivity.
    + intros c' Hc'. rewrite Hfr' by exact Hc'. now apply Hfr.
Qed.

Lemma seed_data_stations (store : Store) (db' : option Store) :
  store "chargingstation" = [] ->
  seed_data create_document (Some store) = (Ok tt, db') ->
  exists store' docs,
    db' = Some store'
    /\ store' "chargingstation" = docs
    /\ Forall2 stored_as seed_stations docs.
Proof.
  intros Hempty. unfold seed_data.
  assert (Hmid : forall mid,
             mid "chargingstation" = [] ->
             (let '(r, fin) :=
                match mid "chargingstation" with
                | [] => create_all create_document "chargingstation"
                          seed_stations mid
                | _ :: _ => (Ok tt, mid)
                end in (r, Some fin)) = (Ok tt, db') ->
             exists store' docs,
               db' = Some store'
               /\ store' "chargingstation" = docs
               /\ Forall2 stored_as seed_stations docs).
  { intros mid Hm. rewrite Hm.
    destruct (create_all create_document "chargingstation" seed_stations mid)
      as [r fin] eqn:Hst.
    intros [= -> <-].
    destruct (create_all_inserts _ _ _ _ Hst) as [(docs & Hdocs & Hall) _].
    exists fin, docs. rewrite Hdocs, Hm. auto. }
  destruct (store "plan") as [| p ps].
  - destruct (create_all create_document "plan" seed_plans store)
      as [[[] | e] mid] eqn:Hplans; [| discriminate].
    destruct (create_all_inserts _ _ _ _ Hplans) as [_ Hfr].
    apply Hmid. rewrite Hfr by discriminate. exact Hempty.
  - apply Hmid. exact Hempty.
Qed.

End SeedToPlan.

Lemma sample_create_inserts : inserts sample_create.
Proof.
  intros c data store i store'. unfold sample_create. intros [= _ <-].
  unfold put. split.
  - eexists. rewrite String.eqb_refl. split; [reflexivity |].
    intros k v Hk Hv. now rewrite lookup_setitem_other.
  - intros c' Hc'. apply String.eqb_neq in Hc'. now rewrite Hc'.
Qed.


